(** * VulkanTest: device negotiation and selection of [main.cpp]

    A shallow embedding of the decision logic of
    [HelloTriangleApplication] (src/VulkanTest/main.cpp): the layer and
    extension checks of [createInstance], the queue family lookup, the
    device extension check, the swap chain query, the device rating, the
    device selection, the logical device creation and the order of the
    driver calls made by [initVulkan] and [cleanup].

    The driver and the windowing library are external: what they report
    is data of the model ([PhysicalDevice], [Driver]); the calls that
    create or destroy an object are recorded in a trace. *)

From stdpp Require Import base numbers list sorting strings gmap.
From Stdlib Require Import QArith.

Local Open Scope string_scope.
Local Open Scope Z_scope.
Local Open Scope list_scope.

(** ** Machine integers

    [int] is 32 bits wide and [uint32_t] values are added to it in
    unsigned arithmetic and converted back (main.cpp line 424). *)

Definition to_uint32 (z : Z) : Z := z mod 2 ^ 32.

Definition to_int32 (z : Z) : Z := (z + 2 ^ 31) mod 2 ^ 32 - 2 ^ 31.

Definition INT_MAX : Z := 2147483647.

(** ** Constants of the Vulkan headers used by the source *)

Definition VK_QUEUE_GRAPHICS_BIT : Z := 1.
Definition VK_KHR_SWAPCHAIN_EXTENSION_NAME : string := "VK_KHR_swapchain".
Definition VK_EXT_DEBUG_REPORT_EXTENSION_NAME : string := "VK_EXT_debug_report".

Inductive VkPhysicalDeviceType :=
| VK_PHYSICAL_DEVICE_TYPE_OTHER
| VK_PHYSICAL_DEVICE_TYPE_INTEGRATED_GPU
| VK_PHYSICAL_DEVICE_TYPE_DISCRETE_GPU
| VK_PHYSICAL_DEVICE_TYPE_VIRTUAL_GPU
| VK_PHYSICAL_DEVICE_TYPE_CPU.

Inductive VkResult :=
| VK_SUCCESS
| VK_ERROR_EXTENSION_NOT_PRESENT
| VK_ERROR_INITIALIZATION_FAILED.

Definition is_success (r : VkResult) : bool :=
  match r with VK_SUCCESS => true | _ => false end.

(** ** Global configuration (main.cpp lines 17-32) *)

Definition requestedLayers : list string :=
  ["VK_LAYER_LUNARG_standard_validation"].

Definition requestedDeviceExtensions : list string :=
  [VK_KHR_SWAPCHAIN_EXTENSION_NAME].

(** [DEBUG] is defined on line 1. *)
Definition enableValidationLayers : bool := true.

(** ** Data reported by the driver *)

Record VkQueueFamilyProperties := {
  queueFlags : Z;   (* VkQueueFlags, a bit mask *)
  queueCount : Z    (* uint32_t *)
}.

Record VkPhysicalDeviceProperties := {
  deviceID : Z;
  deviceType : VkPhysicalDeviceType;
  maxImageDimension2D : Z   (* limits.maxImageDimension2D, uint32_t *)
}.

(** Only the feature flags the source names; every other flag of the
    Vulkan structure is never read. *)
Record VkPhysicalDeviceFeatures := {
  geometryShader : bool;
  logicOp : bool
}.

Record VkSurfaceFormatKHR := {
  format : Z;
  colorSpace : Z
}.

Definition VkPresentModeKHR := Z.

(** Everything the driver answers about one physical device and the
    application's surface. *)
Record PhysicalDevice := {
  physicalDeviceProperties : VkPhysicalDeviceProperties;
  physicalDeviceFeatures : VkPhysicalDeviceFeatures;
  queueFamilyProperties : list VkQueueFamilyProperties;
  surfaceSupport : Z -> bool;        (* vkGetPhysicalDeviceSurfaceSupportKHR *)
  deviceExtensionProperties : list string;
  surfaceFormats : list VkSurfaceFormatKHR;
  surfacePresentModes : list VkPresentModeKHR
}.

(** ** Queue family indices (main.cpp lines 62-70) *)

Record QueueFamilyIndices := {
  graphicsFamily : Z;
  presentFamily : Z
}.

Definition isComplete (q : QueueFamilyIndices) : bool :=
  (0 <=? graphicsFamily q) && (0 <=? presentFamily q).

Definition unresolved : QueueFamilyIndices :=
  {| graphicsFamily := -1; presentFamily := -1 |}.

(** ** Queue family lookup (main.cpp lines 308-331) *)

(** [queueFamily.queueCount > 0 && queueFamily.queueFlags & VK_QUEUE_GRAPHICS_BIT] *)
Definition graphicsCapable (queueFamily : VkQueueFamilyProperties) : bool :=
  (0 <? queueCount queueFamily)
  && negb (Z.land (queueFlags queueFamily) VK_QUEUE_GRAPHICS_BIT =? 0).

(** [queueFamily.queueCount > 0 && presentSupport] *)
Definition presentCapable (presentSupport : bool)
    (queueFamily : VkQueueFamilyProperties) : bool :=
  (0 <? queueCount queueFamily) && presentSupport.

(** One pass of the loop body, lines 322-325. *)
Definition scanFamily (support : Z -> bool) (i : Z)
    (queueFamily : VkQueueFamilyProperties)
    (indices : QueueFamilyIndices) : QueueFamilyIndices :=
  let indices :=
    if graphicsCapable queueFamily
    then {| graphicsFamily := i; presentFamily := presentFamily indices |}
    else indices in
  let presentSupport := support i in
  if presentCapable presentSupport queueFamily
  then {| graphicsFamily := graphicsFamily indices; presentFamily := i |}
  else indices.

(** The [for] loop of lines 321-328, with its counter [i] and its [break]. *)
Fixpoint scanQueueFamilies (support : Z -> bool)
    (queueFamilies : list VkQueueFamilyProperties) (i : Z)
    (indices : QueueFamilyIndices) : QueueFamilyIndices :=
  match queueFamilies with
  | [] => indices
  | queueFamily :: rest =>
      let indices := scanFamily support i queueFamily indices in
      if isComplete indices then indices
      else scanQueueFamilies support rest (i + 1) indices
  end.

Definition findQueueFamilies (physicalDevice : PhysicalDevice)
    : QueueFamilyIndices :=
  scanQueueFamilies (surfaceSupport physicalDevice)
    (queueFamilyProperties physicalDevice) 0 unresolved.

(** ** Device extension check (main.cpp lines 366-377)

    [std::set<std::string>] is a finite set of names; the loop of line
    374 erases every available name from it. *)

Definition eraseAvailable (requestedExtenstions : gset string)
    (availableExtensions : list string) : gset string :=
  foldl (fun s availableExtension => s ∖ {[availableExtension]})
    requestedExtenstions availableExtensions.

Definition checkPhysicalDeviceExtensionSupport
    (physicalDevice : PhysicalDevice) : bool :=
  let availableExtensions := deviceExtensionProperties physicalDevice in
  let requestedExtenstions : gset string :=
    list_to_set requestedDeviceExtensions in
  bool_decide (eraseAvailable requestedExtenstions availableExtensions = ∅).

(** ** Swap chain support (main.cpp lines 72-77 and 380-404) *)

Record SwapChainSupportDetails := {
  formats : list VkSurfaceFormatKHR;
  presentModes : list VkPresentModeKHR
}.

Definition querySwapChainSupport (physicalDevice : PhysicalDevice)
    : SwapChainSupportDetails :=
  let formatCount := Z.of_nat (length (surfaceFormats physicalDevice)) in
  let presentModeCount :=
    Z.of_nat (length (surfacePresentModes physicalDevice)) in
  {| formats :=
       if negb (formatCount =? 0) then surfaceFormats physicalDevice else [];
     presentModes :=
       if negb (presentModeCount =? 0)
       then surfacePresentModes physicalDevice else [] |}.

Definition vec_empty {A} (v : list A) : bool :=
  match v with [] => true | _ => false end.

(** ** Rating (main.cpp lines 407-440)

    [score] is an [int]; line 424 adds a [uint32_t] to it, so the sum is
    formed modulo 2^32 and converted back to [int]. *)

Definition isDiscrete (t : VkPhysicalDeviceType) : bool :=
  match t with VK_PHYSICAL_DEVICE_TYPE_DISCRETE_GPU => true | _ => false end.

Definition ratePhysicalDevice (physicalDevice : PhysicalDevice) : Z :=
  let score := 0 in
  let properties := physicalDeviceProperties physicalDevice in
  let features := physicalDeviceFeatures physicalDevice in
  let queueFamilyIndices := findQueueFamilies physicalDevice in
  let score :=
    if isDiscrete (deviceType properties) then to_int32 (score + 1000)
    else score in
  let score :=
    to_int32 (to_uint32 (to_uint32 score + maxImageDimension2D properties)) in
  if negb (geometryShader features) then 0
  else if negb (isComplete queueFamilyIndices) then 0
  else if negb (checkPhysicalDeviceExtensionSupport physicalDevice) then 0
  else
    let swapChainSupport := querySwapChainSupport physicalDevice in
    if vec_empty (formats swapChainSupport)
       || vec_empty (presentModes swapChainSupport)
    then 0
    else score.

(** ** Failures

    The source throws [std::runtime_error] with a message; each
    constructor stands for one [throw]. *)

Inductive Error :=
| UnsupportedLayer
| UnsupportedExtension
| ContextCreationFailed
| DebugSinkSetupFailed
| SurfaceCreationFailed
| NoDeviceDetected
| NoSuitableDevice
| LogicalDeviceCreationFailed.

Definition what (e : Error) : string :=
  match e with
  | UnsupportedLayer => "Validation layer requested but not available"
  | UnsupportedExtension => "Extension requested but not available"
  | ContextCreationFailed => "Failed to create instance!"
  | DebugSinkSetupFailed => "Failed to set up debug callback!"
  | SurfaceCreationFailed => "Failed to create window surface."
  | NoDeviceDetected => "Failed to detect GPUs with Vulkan support."
  | NoSuitableDevice => "Failed to find a suitable GPU"
  | LogicalDeviceCreationFailed => "Failed to create logical device"
  end.

(** ** Device selection (main.cpp lines 443-482)

    [std::multimap<int, VkPhysicalDevice>] keeps its entries ordered by
    key; [insert] places a new entry after every entry whose key is not
    greater (the upper bound of the equal range), and [rbegin] is the
    last entry. *)

Definition multimap (V : Type) := list (Z * V).

Fixpoint multimap_insert {V} (kv : Z * V) (m : multimap V) : multimap V :=
  match m with
  | [] => [kv]
  | e :: rest =>
      if kv.1 <? e.1 then kv :: e :: rest
      else e :: multimap_insert kv rest
  end.

Definition rbegin {V} (m : multimap V) : option (Z * V) := last m.

(** The loop of lines 462-472. *)
Definition scoreTable (physicalDevices : list PhysicalDevice)
    : multimap PhysicalDevice :=
  foldl
    (fun physicalDevicesAvailable physicalDevice =>
       let physicalDeviceScore := ratePhysicalDevice physicalDevice in
       multimap_insert (physicalDeviceScore, physicalDevice)
         physicalDevicesAvailable)
    [] physicalDevices.

Definition pickPhysicalDevice (physicalDevices : list PhysicalDevice)
    : Error + PhysicalDevice :=
  let physicalDeviceCount := Z.of_nat (length physicalDevices) in
  if physicalDeviceCount =? 0 then inl NoDeviceDetected
  else
    let physicalDevicesAvailable := scoreTable physicalDevices in
    match rbegin physicalDevicesAvailable with
    | Some (score, physicalDevice) =>
        if 0 <? score then inr physicalDevice else inl NoSuitableDevice
    | None => inl NoSuitableDevice   (* not reached: one entry per device *)
    end.

(** ** The driver, the calls made to it and the application state *)

Record VkInstanceCreateInfo := {
  enabledLayerNames : list string;
  enabledExtensionNames : list string
}.

Record VkDeviceQueueCreateInfo := {
  queueFamilyIndex : Z;        (* uint32_t *)
  queueCreateCount : Z;        (* the field queueCount of the structure *)
  queuePriorities : list Q     (* pQueuePriorities, queueCount floats *)
}.

Record VkDeviceCreateInfo := {
  queueCreateInfos : list VkDeviceQueueCreateInfo;
  enabledFeatures : VkPhysicalDeviceFeatures;
  deviceExtensionNames : list string;
  deviceLayerNames : list string
}.

(** Calls that create, fetch or destroy an object, in the order issued.
    The enumeration and query calls only read the [Driver] record. *)
Inductive Call :=
| glfwInit
| glfwCreateWindow
| vkCreateInstance (createInfo : VkInstanceCreateInfo)
| vkCreateDebugReportCallbackEXT
| glfwCreateWindowSurface
| vkCreateDevice (physicalDevice : PhysicalDevice)
    (createInfo : VkDeviceCreateInfo)
| vkGetDeviceQueue (queueFamilyIndex queueIndex : Z)
| vkDestroyDevice
| vkDestroyDebugReportCallbackEXT
| vkDestroySurfaceKHR
| vkDestroyInstance
| glfwDestroyWindow
| glfwTerminate.

Record Driver := {
  availableLayers : list string;       (* vkEnumerateInstanceLayerProperties *)
  availableExtensions : list string;   (* vkEnumerateInstanceExtensionProperties *)
  glfwExtensions : list string;        (* glfwGetRequiredInstanceExtensions *)
  instanceResult : VkInstanceCreateInfo -> VkResult;
  instanceProcAddr : string -> bool;   (* vkGetInstanceProcAddr is not nullptr *)
  debugReportCallbackResult : VkResult;
  windowSurfaceResult : VkResult;
  physicalDevices : list PhysicalDevice;   (* vkEnumeratePhysicalDevices *)
  deviceResult : PhysicalDevice -> VkDeviceCreateInfo -> VkResult
}.

(** The members of the class that the modelled functions write, and the
    calls issued so far (oldest first). A queue handle is the pair of
    the family and the queue index it was fetched with. *)
Record HelloTriangleApplication := {
  physicalDevice : option PhysicalDevice;   (* None is VK_NULL_HANDLE *)
  graphicsQueue : option (Z * Z);
  presentQueue : option (Z * Z);
  calls : list Call
}.

Definition newApplication : HelloTriangleApplication :=
  {| physicalDevice := None; graphicsQueue := None; presentQueue := None;
     calls := [] |}.

(** A member function: it reads and writes the application and either
    returns or throws. *)
Definition M (A : Type) : Type :=
  HelloTriangleApplication -> (Error + A) * HelloTriangleApplication.

#[global] Instance M_ret : MRet M := fun A a app => (inr a, app).

#[global] Instance M_bind : MBind M := fun A B f m app =>
  match m app with
  | (inr a, app') => f a app'
  | (inl e, app') => (inl e, app')
  end.

Definition throw {A} (e : Error) : M A := fun app => (inl e, app).

Definition issue (c : Call) : M unit := fun app =>
  (inr (),
   {| physicalDevice := physicalDevice app;
      graphicsQueue := graphicsQueue app;
      presentQueue := presentQueue app;
      calls := calls app ++ [c] |}).

Definition lift {A} (r : Error + A) : M A :=
  match r with inl e => throw e | inr a => mret a end.

(** ** Layer and extension checks (main.cpp lines 129-220) *)

(** The inner loops of lines 151-157 and 204-210: [strcmp] against every
    available name until one is equal. *)
Fixpoint nameFound (requested : string) (available : list string) : bool :=
  match available with
  | [] => false
  | availableName :: rest =>
      if String.eqb requested availableName then true
      else nameFound requested rest
  end.

(** The outer loops of lines 148-159 and 201-215: stop at the first
    requested name that is not found. *)
Fixpoint allFound (requested available : list string) : bool :=
  match requested with
  | [] => true
  | requestedName :: rest =>
      if nameFound requestedName available then allFound rest available
      else false
  end.

Definition checkValidationLayerSupport (drv : Driver) : bool :=
  allFound requestedLayers (availableLayers drv).

Definition getRequestedExtensions (drv : Driver) : Error + list string :=
  let requestedExtensions := glfwExtensions drv in
  let requestedExtensions :=
    if enableValidationLayers
    then requestedExtensions ++ [VK_EXT_DEBUG_REPORT_EXTENSION_NAME]
    else requestedExtensions in
  if allFound requestedExtensions (availableExtensions drv)
  then inr requestedExtensions
  else inl UnsupportedExtension.

(** ** Instance creation (main.cpp lines 239-285) *)

Definition createInstance (drv : Driver) : M unit :=
  (if enableValidationLayers && negb (checkValidationLayerSupport drv)
   then throw UnsupportedLayer else mret ());;
  let layers := if enableValidationLayers then requestedLayers else [] in
  extensions ← lift (getRequestedExtensions drv);
  let createInfo :=
    {| enabledLayerNames := layers; enabledExtensionNames := extensions |} in
  issue (vkCreateInstance createInfo);;
  if is_success (instanceResult drv createInfo) then mret ()
  else throw ContextCreationFailed.

(** ** Debug callback and surface (main.cpp lines 34-60, 287-305, 537-540) *)

Definition CreateDebugReportCallbackEXT (drv : Driver) : M VkResult :=
  if instanceProcAddr drv "vkCreateDebugReportCallbackEXT"
  then issue vkCreateDebugReportCallbackEXT;;
       mret (debugReportCallbackResult drv)
  else mret VK_ERROR_EXTENSION_NOT_PRESENT.

Definition DestroyDebugReportCallbackEXT (drv : Driver) : M unit :=
  if instanceProcAddr drv "vkDestroyDebugReportCallbackEXT"
  then issue vkDestroyDebugReportCallbackEXT
  else mret ().

Definition setupDebugCallback (drv : Driver) : M unit :=
  if negb enableValidationLayers then mret ()
  else
    r ← CreateDebugReportCallbackEXT drv;
    if is_success r then mret () else throw DebugSinkSetupFailed.

Definition createSurface (drv : Driver) : M unit :=
  issue glfwCreateWindowSurface;;
  if is_success (windowSurfaceResult drv) then mret ()
  else throw SurfaceCreationFailed.

(** [pickPhysicalDevice] as the member function: it stores the device. *)
Definition setPhysicalDevice (pd : PhysicalDevice) : M unit := fun app =>
  (inr (),
   {| physicalDevice := Some pd;
      graphicsQueue := graphicsQueue app;
      presentQueue := presentQueue app;
      calls := calls app |}).

(** ** Logical device (main.cpp lines 485-535) *)

(** [std::set<int>]: ascending, without duplicates. *)
Fixpoint set_insert (x : Z) (s : list Z) : list Z :=
  match s with
  | [] => [x]
  | y :: rest =>
      if x <? y then x :: y :: rest
      else if x =? y then y :: rest
      else y :: set_insert x rest
  end.

Definition queuePriority : Q := 1%Q.

(** The body of the loop of lines 497-505. *)
Definition queueCreateInfoFor (queueFamily : Z) : VkDeviceQueueCreateInfo :=
  {| queueFamilyIndex := to_uint32 queueFamily;
     queueCreateCount := 1;
     queuePriorities := [queuePriority] |}.

(** [VkPhysicalDeviceFeatures physicalDeviceFeatures = {}] *)
Definition noFeatures : VkPhysicalDeviceFeatures :=
  {| geometryShader := false; logicOp := false |}.

Definition deviceCreateInfo (indices : QueueFamilyIndices)
    : VkDeviceCreateInfo :=
  let uniqueQueueFamilies :=
    set_insert (presentFamily indices)
      (set_insert (graphicsFamily indices) []) in
  {| queueCreateInfos := map queueCreateInfoFor uniqueQueueFamilies;
     enabledFeatures := noFeatures;
     deviceExtensionNames := requestedDeviceExtensions;
     deviceLayerNames := if enableValidationLayers then requestedLayers else [] |}.

Definition setQueues (g p : Z * Z) : M unit := fun app =>
  (inr (),
   {| physicalDevice := physicalDevice app;
      graphicsQueue := Some g;
      presentQueue := Some p;
      calls := calls app |}).

Definition createLogicalDevice (drv : Driver) (pd : PhysicalDevice) : M unit :=
  let indices := findQueueFamilies pd in
  let createInfo := deviceCreateInfo indices in
  issue (vkCreateDevice pd createInfo);;
  (if is_success (deviceResult drv pd createInfo) then mret ()
   else throw LogicalDeviceCreationFailed);;
  issue (vkGetDeviceQueue (to_uint32 (graphicsFamily indices)) 0);;
  issue (vkGetDeviceQueue (to_uint32 (presentFamily indices)) 0);;
  setQueues (to_uint32 (graphicsFamily indices), 0)
            (to_uint32 (presentFamily indices), 0).

(** ** Start-up and teardown (main.cpp lines 592-647) *)

Definition initWindow : M unit :=
  issue glfwInit;; issue glfwCreateWindow.

Definition initVulkan (drv : Driver) : M unit :=
  createInstance drv;;
  setupDebugCallback drv;;
  createSurface drv;;
  pd ← lift (pickPhysicalDevice (physicalDevices drv));
  setPhysicalDevice pd;;
  createLogicalDevice drv pd.

Definition cleanup (drv : Driver) : M unit :=
  issue vkDestroyDevice;;
  DestroyDebugReportCallbackEXT drv;;
  issue vkDestroySurfaceKHR;;
  issue vkDestroyInstance;;
  issue glfwDestroyWindow;;
  issue glfwTerminate.

(** ** Acquisitions and releases seen in a trace *)

(** The four objects [initVulkan] creates and [cleanup] destroys. *)
Inductive Resource := Context | DebugSink | Surface | LogicalDevice.

Definition acquires (c : Call) : option Resource :=
  match c with
  | vkCreateInstance _ => Some Context
  | vkCreateDebugReportCallbackEXT => Some DebugSink
  | glfwCreateWindowSurface => Some Surface
  | vkCreateDevice _ _ => Some LogicalDevice
  | _ => None
  end.

Definition releases (c : Call) : option Resource :=
  match c with
  | vkDestroyInstance => Some Context
  | vkDestroyDebugReportCallbackEXT => Some DebugSink
  | vkDestroySurfaceKHR => Some Surface
  | vkDestroyDevice => Some LogicalDevice
  | _ => None
  end.

Definition acquisitionOrder (trace : list Call) : list Resource :=
  omap acquires trace.

Definition releaseOrder (trace : list Call) : list Resource :=
  omap releases trace.

(** ** Notions used to state the properties *)

(** [lastMatch P fams n base old new]: among the first [n] families of
    [fams], whose indices count from [base], [new] is the index of the
    last one that satisfies [P]; [new] is [old] when none does. *)
Definition lastMatch (P : Z -> VkQueueFamilyProperties -> bool)
    (fams : list VkQueueFamilyProperties) (n : nat) (base old new : Z) : Prop :=
  (new = old
   ∧ ∀ (j : nat) qf, (j < n)%nat → fams !! j = Some qf →
       P (base + Z.of_nat j) qf = false)
  ∨ (∃ (j : nat) qf, (j < n)%nat ∧ new = base + Z.of_nat j
       ∧ fams !! j = Some qf ∧ P (base + Z.of_nat j) qf = true
       ∧ ∀ (k : nat) qf', (j < k < n)%nat → fams !! k = Some qf' →
           P (base + Z.of_nat k) qf' = false).

(** The lookup rule in the words of the specification: the first index
    that satisfies the predicate, [-1] when there is none. *)
Fixpoint firstIndexFrom (P : Z -> VkQueueFamilyProperties -> bool)
    (fams : list VkQueueFamilyProperties) (i : Z) : Z :=
  match fams with
  | [] => -1
  | qf :: rest => if P i qf then i else firstIndexFrom P rest (i + 1)
  end.

Definition firstMatchIndices (pd : PhysicalDevice) : QueueFamilyIndices :=
  {| graphicsFamily :=
       firstIndexFrom (fun _ qf => graphicsCapable qf)
         (queueFamilyProperties pd) 0;
     presentFamily :=
       firstIndexFrom (fun i qf => presentCapable (surfaceSupport pd i) qf)
         (queueFamilyProperties pd) 0 |}.

(** The four hard requirements of the rating. *)
Definition meetsRequirements (pd : PhysicalDevice) : bool :=
  geometryShader (physicalDeviceFeatures pd)
  && isComplete (findQueueFamilies pd)
  && checkPhysicalDeviceExtensionSupport pd
  && negb (vec_empty (formats (querySwapChainSupport pd)))
  && negb (vec_empty (presentModes (querySwapChainSupport pd))).

(** The score in the words of the specification, as an unbounded sum. *)
Definition plainScore (pd : PhysicalDevice) : Z :=
  (if isDiscrete (deviceType (physicalDeviceProperties pd)) then 1000 else 0)
  + maxImageDimension2D (physicalDeviceProperties pd).

(** The entries of a multimap are ordered by key. *)
Definition keyOrdered {V} (m : multimap V) : Prop :=
  StronglySorted (fun a b : Z * V => a.1 <= b.1) m.

(** The instance extensions [getRequestedExtensions] asks for. *)
Definition requestedExtensions (drv : Driver) : list string :=
  glfwExtensions drv ++ [VK_EXT_DEBUG_REPORT_EXTENSION_NAME].

(** Some requested validation layer is not in the driver's list. *)
Definition missingLayer (drv : Driver) : Prop :=
  ∃ l, l ∈ requestedLayers ∧ l ∉ availableLayers drv.

(** Some requested instance extension is not in the driver's list. *)
Definition missingExtension (drv : Driver) : Prop :=
  ∃ e, e ∈ requestedExtensions drv ∧ e ∉ availableExtensions drv.

(** The calls a member function adds to the trace. *)
Definition issued (before after : HelloTriangleApplication) : list Call :=
  drop (length (calls before)) (calls after).

(** ** Concrete devices and drivers *)

Definition family (flags count : Z) : VkQueueFamilyProperties :=
  {| queueFlags := flags; queueCount := count |}.

Definition gpu (id : Z) (type : VkPhysicalDeviceType) (maxDim : Z)
    (geometry : bool) : PhysicalDevice :=
  {| physicalDeviceProperties :=
       {| deviceID := id; deviceType := type; maxImageDimension2D := maxDim |};
     physicalDeviceFeatures := {| geometryShader := geometry; logicOp := false |};
     queueFamilyProperties := [family 1 1];
     surfaceSupport := fun _ => true;
     deviceExtensionProperties := [VK_KHR_SWAPCHAIN_EXTENSION_NAME];
     surfaceFormats := [{| format := 44; colorSpace := 0 |}];
     surfacePresentModes := [2] |}.

Definition withFamilies (pd : PhysicalDevice)
    (fams : list VkQueueFamilyProperties) (support : Z -> bool)
    : PhysicalDevice :=
  {| physicalDeviceProperties := physicalDeviceProperties pd;
     physicalDeviceFeatures := physicalDeviceFeatures pd;
     queueFamilyProperties := fams;
     surfaceSupport := support;
     deviceExtensionProperties := deviceExtensionProperties pd;
     surfaceFormats := surfaceFormats pd;
     surfacePresentModes := surfacePresentModes pd |}.

Definition discreteA : PhysicalDevice :=
  gpu 1 VK_PHYSICAL_DEVICE_TYPE_DISCRETE_GPU 8192 true.

Definition integratedB : PhysicalDevice :=
  gpu 2 VK_PHYSICAL_DEVICE_TYPE_INTEGRATED_GPU 16384 true.

Definition discreteTwin : PhysicalDevice :=
  gpu 3 VK_PHYSICAL_DEVICE_TYPE_DISCRETE_GPU 8192 true.

Definition noGeometry : PhysicalDevice :=
  gpu 4 VK_PHYSICAL_DEVICE_TYPE_DISCRETE_GPU 8192 false.

(** A discrete device that reports the largest [uint32_t] as its limit. *)
Definition hugeLimitDiscrete : PhysicalDevice :=
  gpu 5 VK_PHYSICAL_DEVICE_TYPE_DISCRETE_GPU 4294967295 true.

(** An integrated device whose limit is 2^31. *)
Definition halfRangeIntegrated : PhysicalDevice :=
  gpu 6 VK_PHYSICAL_DEVICE_TYPE_INTEGRATED_GPU 2147483648 true.

(** Two graphics families; only the second one can present. *)
Definition twoGraphicsFamilies : PhysicalDevice :=
  withFamilies integratedB [family 1 1; family 1 1] (fun i => i =? 1).

(** Family 0 advertises graphics and presentation but holds no queue. *)
Definition emptyFirstFamily : PhysicalDevice :=
  withFamilies integratedB [family 1 0; family 1 1] (fun _ => true).

(** Graphics on family 0, presentation on family 1. *)
Definition splitFamilies : PhysicalDevice :=
  withFamilies integratedB [family 1 1; family 0 1] (fun i => i =? 1).

Definition workingDriver : Driver :=
  {| availableLayers := ["VK_LAYER_LUNARG_standard_validation"];
     availableExtensions :=
       ["VK_KHR_surface"; "VK_KHR_win32_surface"; "VK_EXT_debug_report"];
     glfwExtensions := ["VK_KHR_surface"; "VK_KHR_win32_surface"];
     instanceResult := fun _ => VK_SUCCESS;
     instanceProcAddr := fun _ => true;
     debugReportCallbackResult := VK_SUCCESS;
     windowSurfaceResult := VK_SUCCESS;
     physicalDevices := [discreteA; integratedB];
     deviceResult := fun _ _ => VK_SUCCESS |}.

Definition withAvailable (drv : Driver) (layers extensions : list string)
    : Driver :=
  {| availableLayers := layers;
     availableExtensions := extensions;
     glfwExtensions := glfwExtensions drv;
     instanceResult := instanceResult drv;
     instanceProcAddr := instanceProcAddr drv;
     debugReportCallbackResult := debugReportCallbackResult drv;
     windowSurfaceResult := windowSurfaceResult drv;
     physicalDevices := physicalDevices drv;
     deviceResult := deviceResult drv |}.

(** No validation layer is installed. *)
Definition driverWithoutLayer : Driver :=
  withAvailable workingDriver [] (availableExtensions workingDriver).

(** The debug report extension is not offered. *)
Definition driverWithoutDebugReport : Driver :=
  withAvailable workingDriver (availableLayers workingDriver)
    ["VK_KHR_surface"; "VK_KHR_win32_surface"].

(** Neither a validation layer nor the debug report extension. *)
Definition driverWithoutLayerAndDebugReport : Driver :=
  withAvailable workingDriver [] ["VK_KHR_surface"; "VK_KHR_win32_surface"].

(** ** Swap chain choices (main.cpp lines 542-590)

    Constants of the Vulkan headers. *)

Definition VK_FORMAT_UNDEFINED : Z := 0.
Definition VK_FORMAT_B8G8R8_UNORM : Z := 30.
Definition VK_COLOR_SPACE_SRGB_NONLINEAR_KHR : Z := 0.
Definition VK_PRESENT_MODE_IMMEDIATE_KHR : VkPresentModeKHR := 0.
Definition VK_PRESENT_MODE_MAILBOX_KHR : VkPresentModeKHR := 1.
Definition VK_PRESENT_MODE_FIFO_KHR : VkPresentModeKHR := 2.
Definition UINT32_MAX : Z := 4294967295.

(** The loop of lines 553-557. *)
Fixpoint findPreferredFormat (bestFormat bestColorSpace : Z)
    (availableSurfaceFormats : list VkSurfaceFormatKHR)
    : option VkSurfaceFormatKHR :=
  match availableSurfaceFormats with
  | [] => None
  | availableSurfaceFormat :: rest =>
      if (format availableSurfaceFormat =? bestFormat)
         && (colorSpace availableSurfaceFormat =? bestColorSpace)
      then Some availableSurfaceFormat
      else findPreferredFormat bestFormat bestColorSpace rest
  end.

(** [availableSurfaceFormats[0]] on an empty vector is undefined in the
    source; the model answers [None] there. *)
Definition chooseSwapChainSurfaceFormat
    (availableSurfaceFormats : list VkSurfaceFormatKHR)
    : option VkSurfaceFormatKHR :=
  let bestFormat := VK_FORMAT_B8G8R8_UNORM in
  let bestColorSpace := VK_COLOR_SPACE_SRGB_NONLINEAR_KHR in
  if (Z.of_nat (length availableSurfaceFormats) =? 1)
     && match availableSurfaceFormats !! 0%nat with
        | Some first => format first =? VK_FORMAT_UNDEFINED
        | None => false
        end
  then Some {| format := bestFormat; colorSpace := bestColorSpace |}
  else
    match findPreferredFormat bestFormat bestColorSpace
            availableSurfaceFormats with
    | Some availableSurfaceFormat => Some availableSurfaceFormat
    | None => availableSurfaceFormats !! 0%nat
    end.

(** The loop of lines 569-572, with its variable [bestMode]. *)
Fixpoint scanPresentModes (availablePresentModes : list VkPresentModeKHR)
    (bestMode : VkPresentModeKHR) : VkPresentModeKHR :=
  match availablePresentModes with
  | [] => bestMode
  | availablePresentMode :: rest =>
      if availablePresentMode =? VK_PRESENT_MODE_MAILBOX_KHR
      then availablePresentMode
      else if availablePresentMode =? VK_PRESENT_MODE_IMMEDIATE_KHR
      then scanPresentModes rest availablePresentMode
      else scanPresentModes rest bestMode
  end.

Definition chooseSwapPresentMode
    (availablePresentModes : list VkPresentModeKHR) : VkPresentModeKHR :=
  scanPresentModes availablePresentModes VK_PRESENT_MODE_FIFO_KHR.

Record VkExtent2D := {
  width : Z;    (* uint32_t *)
  height : Z    (* uint32_t *)
}.

(** The fields of the structure that the source reads. *)
Record VkSurfaceCapabilitiesKHR := {
  currentExtent : VkExtent2D;
  minImageExtent : VkExtent2D;
  maxImageExtent : VkExtent2D
}.

Definition WIN_WIDTH : Z := 800.
Definition WIN_HEIGHT : Z := 600.

Definition chooseSwapExtent (capabilities : VkSurfaceCapabilitiesKHR)
    : VkExtent2D :=
  if negb (width (currentExtent capabilities) =? UINT32_MAX)
  then currentExtent capabilities
  else
    let actualExtent := {| width := WIN_WIDTH; height := WIN_HEIGHT |} in
    {| width :=
         Z.max (width (minImageExtent capabilities))
           (Z.min (width (maxImageExtent capabilities)) (width actualExtent));
       height :=
         Z.max (height (minImageExtent capabilities))
           (Z.min (height (maxImageExtent capabilities))
              (height actualExtent)) |}.

(** ** Main loop, [run] and [main] (main.cpp lines 84-93, 627-636, 651-666)

    [shouldClose] lists the answers of [glfwWindowShouldClose] in the
    order the loop asks. The result is the number of [glfwPollEvents]
    calls made before the window reports that it is closed, and [None]
    when the listed answers end while the loop is still running. *)
Fixpoint mainLoop (shouldClose : list bool) : option nat :=
  match shouldClose with
  | [] => None
  | true :: _ => Some 0%nat
  | false :: rest => S <$> mainLoop rest
  end.

Definition run (drv : Driver) (shouldClose : list bool)
    (app : HelloTriangleApplication)
    : option ((Error + ()) * HelloTriangleApplication) :=
  match (initWindow;; initVulkan drv) app with
  | (inl e, app') => Some (inl e, app')
  | (inr _, app') =>
      match mainLoop shouldClose with
      | None => None
      | Some _ => Some (cleanup drv app')
      end
  end.



(** ** More notions used to state the properties *)

(** The application after the calls [l] have been issued. *)
Definition withCalls (app : HelloTriangleApplication) (l : list Call)
    : HelloTriangleApplication :=
  {| physicalDevice := physicalDevice app;
     graphicsQueue := graphicsQueue app;
     presentQueue := presentQueue app;
     calls := calls app ++ l |}.

(** The creation request [createInstance] passes to the driver. *)
Definition instanceCreateInfo (drv : Driver) : VkInstanceCreateInfo :=
  {| enabledLayerNames := requestedLayers;
     enabledExtensionNames := requestedExtensions drv |}.

(** Family [j] of the device has a queue and the graphics bit. *)
Definition graphicsAt (pd : PhysicalDevice) (j : nat) : Prop :=
  ∃ qf, queueFamilyProperties pd !! j = Some qf ∧ graphicsCapable qf = true.

(** Family [j] of the device has a queue and can present to the surface. *)
Definition presentAt (pd : PhysicalDevice) (j : nat) : Prop :=
  ∃ qf, queueFamilyProperties pd !! j = Some qf
        ∧ presentCapable (surfaceSupport pd (Z.of_nat j)) qf = true.

(** The device [pd] with another image dimension limit. *)
Definition withLimit (pd : PhysicalDevice) (maxDim : Z) : PhysicalDevice :=
  {| physicalDeviceProperties :=
       {| deviceID := deviceID (physicalDeviceProperties pd);
          deviceType := deviceType (physicalDeviceProperties pd);
          maxImageDimension2D := maxDim |};
     physicalDeviceFeatures := physicalDeviceFeatures pd;
     queueFamilyProperties := queueFamilyProperties pd;
     surfaceSupport := surfaceSupport pd;
     deviceExtensionProperties := deviceExtensionProperties pd;
     surfaceFormats := surfaceFormats pd;
     surfacePresentModes := surfacePresentModes pd |}.

(** Every step of [initVulkan] succeeds on this driver. *)
Definition startsUp (drv : Driver) : Prop :=
  (∀ l, l ∈ requestedLayers → l ∈ availableLayers drv)
  ∧ (∀ e, e ∈ requestedExtensions drv → e ∈ availableExtensions drv)
  ∧ instanceResult drv (instanceCreateInfo drv) = VK_SUCCESS
  ∧ instanceProcAddr drv "vkCreateDebugReportCallbackEXT" = true
  ∧ debugReportCallbackResult drv = VK_SUCCESS
  ∧ windowSurfaceResult drv = VK_SUCCESS
  ∧ ∃ pd, pickPhysicalDevice (physicalDevices drv) = inr pd
          ∧ deviceResult drv pd (deviceCreateInfo (findQueueFamilies pd))
            = VK_SUCCESS.

(** Drivers on which one step fails. *)
Definition withResults (drv : Driver) (surface : VkResult)
    (devices : list PhysicalDevice) (device : VkResult) : Driver :=
  {| availableLayers := availableLayers drv;
     availableExtensions := availableExtensions drv;
     glfwExtensions := glfwExtensions drv;
     instanceResult := instanceResult drv;
     instanceProcAddr := instanceProcAddr drv;
     debugReportCallbackResult := debugReportCallbackResult drv;
     windowSurfaceResult := surface;
     physicalDevices := devices;
     deviceResult := fun _ _ => device |}.

Definition driverWithoutDevices : Driver :=
  withResults workingDriver VK_SUCCESS [] VK_SUCCESS.

Definition driverRejectingDevice : Driver :=
  withResults workingDriver VK_SUCCESS [discreteA]
    VK_ERROR_INITIALIZATION_FAILED.

(** No graphics family and no family that can present. *)
Definition computeOnly : PhysicalDevice :=
  withFamilies integratedB [family 2 1; family 4 1] (fun _ => false).

(** The objects whose creation call [initVulkan] has issued when it
    throws [e]; for the four creation failures the last of them is the
    one whose creation failed. *)
Definition attemptedBefore (drv : Driver) (e : Error) : list Resource :=
  match e with
  | UnsupportedLayer | UnsupportedExtension => []
  | ContextCreationFailed => [Context]
  | DebugSinkSetupFailed =>
      if instanceProcAddr drv "vkCreateDebugReportCallbackEXT"
      then [Context; DebugSink] else [Context]
  | SurfaceCreationFailed | NoDeviceDetected | NoSuitableDevice =>
      [Context; DebugSink; Surface]
  | LogicalDeviceCreationFailed => [Context; DebugSink; Surface; LogicalDevice]
  end.

(** The calls [cleanup] issues. *)
Definition cleanupCalls (drv : Driver) : list Call :=
  vkDestroyDevice
  :: (if instanceProcAddr drv "vkDestroyDebugReportCallbackEXT"
      then [vkDestroyDebugReportCallbackEXT] else [])
  ++ [vkDestroySurfaceKHR; vkDestroyInstance; glfwDestroyWindow;
      glfwTerminate].

(** * Properties *)

(** ** Queue family lookup *)

Section Scan.
Variable support : Z -> bool.

Let G : Z -> VkQueueFamilyProperties -> bool := fun _ qf => graphicsCapable qf.
Let P : Z -> VkQueueFamilyProperties -> bool :=
  fun i qf => presentCapable (support i) qf.

Lemma scanFamily_graphics i qf ind :
  graphicsFamily (scanFamily support i qf ind)
  = if graphicsCapable qf then i else graphicsFamily ind.
Proof.
  unfold scanFamily.
  destruct (graphicsCapable qf), (presentCapable (support i) qf); reflexivity.
Qed.

Lemma scanFamily_present i qf ind :
  presentFamily (scanFamily support i qf ind)
  = if presentCapable (support i) qf then i else presentFamily ind.
Proof.
  unfold scanFamily.
  destruct (graphicsCapable qf), (presentCapable (support i) qf); reflexivity.
Qed.

Lemma lastMatch_nil Q fams base old : lastMatch Q fams 0 base old old.
Proof. left. split; [reflexivity | intros; lia]. Qed.

Lemma lastMatch_cons Q qf rest n base old new :
  lastMatch Q rest n (base + 1) (if Q base qf then base else old) new →
  lastMatch Q (qf :: rest) (S n) base old new.
Proof.
  intros [[-> Hnone] | (j & qf' & Hj & -> & Hlk & Hsat & Hlater)].
  - destruct (Q base qf) eqn:Hq.
    + right. exists 0%nat, qf. repeat split; try lia.
      * replace (base + Z.of_nat 0) with base by lia. exact Hq.
      * intros [|k] qf' Hk Hlk; [lia |].
        replace (base + Z.of_nat (S k)) with (base + 1 + Z.of_nat k) by lia.
        apply Hnone; [lia | exact Hlk].
    + left. split; [reflexivity |].
      intros [|j] qf' Hj Hlk.
      * simpl in Hlk. injection Hlk as <-.
        replace (base + Z.of_nat 0) with base by lia. exact Hq.
      * replace (base + Z.of_nat (S j)) with (base + 1 + Z.of_nat j) by lia.
        apply Hnone; [lia | exact Hlk].
  - right. exists (S j), qf'. repeat split; try lia.
    + exact Hlk.
    + replace (base + Z.of_nat (S j)) with (base + 1 + Z.of_nat j) by lia.
      exact Hsat.
    + intros [|k] qf'' Hk Hlk'; [lia |].
      replace (base + Z.of_nat (S k)) with (base + 1 + Z.of_nat k) by lia.
      apply Hlater; [lia | exact Hlk'].
Qed.

Lemma scan_stops fams : ∀ i ind,
  isComplete ind = false →
  ∃ n : nat, (n ≤ length fams)%nat
    ∧ scanQueueFamilies support (take n fams) i ind
      = scanQueueFamilies support fams i ind
    ∧ ((n < length fams)%nat →
         isComplete (scanQueueFamilies support fams i ind) = true)
    ∧ (∀ m : nat, (m < n)%nat →
         isComplete (scanQueueFamilies support (take m fams) i ind) = false)
    ∧ lastMatch G fams n i (graphicsFamily ind)
        (graphicsFamily (scanQueueFamilies support fams i ind))
    ∧ lastMatch P fams n i (presentFamily ind)
        (presentFamily (scanQueueFamilies support fams i ind)).
Proof.
  induction fams as [|qf rest IH]; intros i ind Hinc.
  - exists 0%nat. simpl. repeat split; try lia; apply lastMatch_nil.
  - simpl. destruct (isComplete (scanFamily support i qf ind)) eqn:Hc.
    + exists 1%nat. simpl. rewrite Hc. repeat split; try lia.
      * intros m Hm. replace m with 0%nat by lia. exact Hinc.
      * apply lastMatch_cons. rewrite scanFamily_graphics.
        apply lastMatch_nil.
      * apply lastMatch_cons. rewrite scanFamily_present.
        apply lastMatch_nil.
    + destruct (IH (i + 1) _ Hc) as (n & Hn & Hpre & Hstop & Hmin & Hg & Hp).
      exists (S n). simpl. rewrite Hc. repeat split; try lia.
      * exact Hpre.
      * intros Hlt. apply Hstop. lia.
      * intros [|m] Hm; simpl; [exact Hinc |].
        rewrite Hc. apply Hmin. lia.
      * apply lastMatch_cons. rewrite scanFamily_graphics in Hg. exact Hg.
      * apply lastMatch_cons. rewrite scanFamily_present in Hp. exact Hp.
Qed.

Lemma scan_ignores_rest fams others : ∀ i ind,
  isComplete ind = false →
  isComplete (scanQueueFamilies support fams i ind) = true →
  scanQueueFamilies support (fams ++ others) i ind
  = scanQueueFamilies support fams i ind.
Proof.
  induction fams as [|qf rest IH]; intros i ind Hinc Hc; simpl in *.
  - congruence.
  - destruct (isComplete (scanFamily support i qf ind)) eqn:Hs;
      [reflexivity | apply IH; assumption].
Qed.
End Scan.

Lemma findQueueFamilies_range pd :
  -1 <= graphicsFamily (findQueueFamilies pd)
        < Z.of_nat (length (queueFamilyProperties pd))
  ∧ -1 <= presentFamily (findQueueFamilies pd)
        < Z.of_nat (length (queueFamilyProperties pd)).
Proof.
  unfold findQueueFamilies.
  destruct (scan_stops (surfaceSupport pd) (queueFamilyProperties pd) 0
              unresolved eq_refl) as (n & Hn & _ & _ & _ & Hg & Hp).
  split.
  - destruct Hg as [[-> _] | (j & qf & Hj & -> & _)]; simpl; lia.
  - destruct Hp as [[-> _] | (j & qf & Hj & -> & _)]; simpl; lia.
Qed.

(** C2, as the code has it. [findQueueFamilies] scans the families in
    driver order and stops right after the first family at which both
    fields are populated, or at the end of the list: it scans the first
    [n] families only. [graphicsFamily] is the index of the last scanned
    family that has a queue and the graphics bit, [presentFamily] the
    index of the last scanned family that has a queue and can present,
    and a field is [-1] when no scanned family qualifies. A first family
    that qualifies for both populates both. Families after the first
    [n] are never considered: replacing them changes nothing. *)
Theorem findQueueFamilies_last_scanned_match (pd : PhysicalDevice) :
  let fams := queueFamilyProperties pd in
  let support := surfaceSupport pd in
  let r := findQueueFamilies pd in
  ∃ n : nat, (n ≤ length fams)%nat
    ∧ scanQueueFamilies support (take n fams) 0 unresolved = r
    ∧ ((n < length fams)%nat → isComplete r = true)
    ∧ (∀ m : nat, (m < n)%nat →
         isComplete (scanQueueFamilies support (take m fams) 0 unresolved)
         = false)
    ∧ lastMatch (fun _ qf => graphicsCapable qf) fams n 0 (-1)
        (graphicsFamily r)
    ∧ lastMatch (fun i qf => presentCapable (support i) qf) fams n 0 (-1)
        (presentFamily r)
    ∧ (∀ qf rest, fams = qf :: rest → graphicsCapable qf = true →
         presentCapable (support 0) qf = true →
         r = {| graphicsFamily := 0; presentFamily := 0 |})
    ∧ (∀ others, isComplete r = true →
         scanQueueFamilies support (take n fams ++ others) 0 unresolved = r).
Proof.
  intros fams support r.
  destruct (scan_stops support fams 0 unresolved eq_refl)
    as (n & Hn & Hpre & Hstop & Hmin & Hg & Hp).
  exists n. repeat split; try assumption.
  - intros qf rest Hf Hgc Hpc. subst r. unfold findQueueFamilies.
    fold fams support. rewrite Hf. simpl. unfold scanFamily.
    rewrite Hgc, Hpc. reflexivity.
  - intros others Hc. subst r. unfold findQueueFamilies in *.
    fold fams support in Hc |- *. rewrite <- Hpre in Hc |- *.
    apply scan_ignores_rest; [reflexivity | exact Hc].
Qed.

(** C10. A family that reports no queue is never the graphics family and
    never the presentation family, whatever its flags and whatever the
    driver says about presentation. *)
Theorem findQueueFamilies_skips_empty_family (pd : PhysicalDevice)
    (j : nat) (qf : VkQueueFamilyProperties) :
  queueFamilyProperties pd !! j = Some qf →
  queueCount qf = 0 →
  graphicsFamily (findQueueFamilies pd) ≠ Z.of_nat j
  ∧ presentFamily (findQueueFamilies pd) ≠ Z.of_nat j.
Proof.
  intros Hlk Hcount. unfold findQueueFamilies.
  destruct (scan_stops (surfaceSupport pd) (queueFamilyProperties pd) 0
              unresolved eq_refl) as (n & _ & _ & _ & _ & Hg & Hp).
  split.
  - destruct Hg as [[-> _] | (k & qf' & _ & -> & Hk & Hsat & _)];
      [simpl; lia |].
    intros Heq. assert (k = j) as -> by lia.
    rewrite Hlk in Hk. injection Hk as <-.
    unfold graphicsCapable in Hsat. rewrite Hcount in Hsat. discriminate.
  - destruct Hp as [[-> _] | (k & qf' & _ & -> & Hk & Hsat & _)];
      [simpl; lia |].
    intros Heq. assert (k = j) as -> by lia.
    rewrite Hlk in Hk. injection Hk as <-.
    unfold presentCapable in Hsat. rewrite Hcount in Hsat. discriminate.
Qed.

Lemma findQueueFamilies_skips_empty_family_witness :
  queueFamilyProperties emptyFirstFamily !! 0%nat = Some (family 1 0)
  ∧ graphicsCapable (family 1 1) = true
  ∧ graphicsFamily (findQueueFamilies emptyFirstFamily) ≠ 0
  ∧ presentFamily (findQueueFamilies emptyFirstFamily) ≠ 0.
Proof.
  split; [reflexivity |]. split; [reflexivity |].
  apply (findQueueFamilies_skips_empty_family emptyFirstFamily 0 (family 1 0));
    reflexivity.
Defined.

Lemma findQueueFamilies_last_scanned_match_witness :
  ∃ n : nat, (n ≤ 2)%nat
    ∧ graphicsFamily (findQueueFamilies twoGraphicsFamilies) = 1
    ∧ lastMatch (fun _ qf => graphicsCapable qf)
        (queueFamilyProperties twoGraphicsFamilies) n 0 (-1) 1.
Proof.
  destruct (findQueueFamilies_last_scanned_match twoGraphicsFamilies)
    as (n & Hn & _ & _ & _ & Hg & _).
  exists n. split; [exact Hn |]. split; [reflexivity | exact Hg].
Defined.

(** C2 as the specification states it fails: with two graphics families
    of which only the second can present, the lookup returns family 1 as
    the graphics family, and the first graphics family is family 0. *)
Lemma findQueueFamilies_not_first_match :
  findQueueFamilies twoGraphicsFamilies
    = {| graphicsFamily := 1; presentFamily := 1 |}
  ∧ firstMatchIndices twoGraphicsFamilies
    = {| graphicsFamily := 0; presentFamily := 1 |}
  ∧ ¬ (∀ pd, findQueueFamilies pd = firstMatchIndices pd).
Proof.
  split; [reflexivity |]. split; [reflexivity |].
  intros H. specialize (H twoGraphicsFamilies). discriminate H.
Qed.

(** ** Device extension check *)

Lemma eraseAvailable_difference (available : list string) :
  ∀ requested : gset string,
    eraseAvailable requested available = requested ∖ list_to_set available.
Proof.
  unfold eraseAvailable.
  induction available as [|a rest IH]; intros requested; simpl.
  - by rewrite difference_empty_L.
  - by rewrite IH, difference_difference_l_L.
Qed.

Lemma checkPhysicalDeviceExtensionSupport_all pd :
  checkPhysicalDeviceExtensionSupport pd = true
  ↔ ∀ e, e ∈ requestedDeviceExtensions → e ∈ deviceExtensionProperties pd.
Proof.
  unfold checkPhysicalDeviceExtensionSupport.
  rewrite bool_decide_eq_true, eraseAvailable_difference.
  split.
  - intros H e He. destruct (decide (e ∈ deviceExtensionProperties pd)) as [|Hn];
      [done |].
    assert (e ∈ (list_to_set requestedDeviceExtensions
                   ∖ list_to_set (deviceExtensionProperties pd) : gset string))
      as Hin by set_solver.
    rewrite H in Hin. set_solver.
  - intros H. apply set_eq. intros e. split; [| set_solver].
    intros [He Hn]%elem_of_difference. apply elem_of_list_to_set in He.
    exfalso. apply Hn. apply elem_of_list_to_set. auto.
Qed.

(** C8. The check answers true exactly when the required names minus
    the names the device offers is the empty set. *)
Theorem checkPhysicalDeviceExtensionSupport_iff_difference_empty
    (pd : PhysicalDevice) :
  checkPhysicalDeviceExtensionSupport pd = true
  ↔ (list_to_set requestedDeviceExtensions
       ∖ list_to_set (deviceExtensionProperties pd) : gset string) = ∅.
Proof.
  unfold checkPhysicalDeviceExtensionSupport.
  by rewrite bool_decide_eq_true, eraseAvailable_difference.
Qed.

Example checkPhysicalDeviceExtensionSupport_examples :
  checkPhysicalDeviceExtensionSupport integratedB = true
  ∧ checkPhysicalDeviceExtensionSupport
      {| physicalDeviceProperties := physicalDeviceProperties integratedB;
         physicalDeviceFeatures := physicalDeviceFeatures integratedB;
         queueFamilyProperties := queueFamilyProperties integratedB;
         surfaceSupport := surfaceSupport integratedB;
         deviceExtensionProperties := ["VK_KHR_maintenance1"];
         surfaceFormats := surfaceFormats integratedB;
         surfacePresentModes := surfacePresentModes integratedB |} = false.
Proof. split; vm_compute; reflexivity. Qed.

(** ** Rating *)

Lemma to_int32_of_unsigned_sum (score x : Z) :
  to_int32 (to_uint32 (to_uint32 score + x)) = to_int32 (score + x).
Proof.
  unfold to_int32, to_uint32.
  rewrite Zplus_mod_idemp_l, <- Z.add_assoc, Zplus_mod_idemp_l, Z.add_assoc.
  reflexivity.
Qed.

Lemma to_int32_small (z : Z) : - 2 ^ 31 <= z <= INT_MAX → to_int32 z = z.
Proof.
  unfold to_int32, INT_MAX. intros H. rewrite Z.mod_small by lia. lia.
Qed.

Lemma vec_empty_nil {A} (v : list A) : vec_empty v = true ↔ v = [].
Proof. by destruct v. Qed.

Lemma querySwapChainSupport_formats pd :
  formats (querySwapChainSupport pd) = surfaceFormats pd.
Proof. unfold querySwapChainSupport. simpl. by destruct (surfaceFormats pd). Qed.

Lemma querySwapChainSupport_presentModes pd :
  presentModes (querySwapChainSupport pd) = surfacePresentModes pd.
Proof.
  unfold querySwapChainSupport. simpl. by destruct (surfacePresentModes pd).
Qed.

Lemma ratePhysicalDevice_cases pd :
  ratePhysicalDevice pd
  = if meetsRequirements pd then to_int32 (plainScore pd) else 0.
Proof.
  unfold ratePhysicalDevice, meetsRequirements, plainScore.
  rewrite to_int32_of_unsigned_sum.
  destruct (geometryShader _); [| reflexivity].
  destruct (isComplete _); [| reflexivity].
  destruct (checkPhysicalDeviceExtensionSupport _); [| reflexivity].
  destruct (vec_empty (formats _)); [reflexivity |].
  destruct (vec_empty (presentModes _)); [reflexivity |]. simpl.
  destruct (isDiscrete _); reflexivity.
Qed.

(** C3. The score is 0 as soon as one hard requirement fails: no
    geometry shader, queue family indices that are not complete (the
    graphics or the presentation family left unresolved), a required
    device extension not offered, no surface format or no presentation
    mode; the device type and the limits play no part. *)
Theorem ratePhysicalDevice_zero_on_failed_requirement (pd : PhysicalDevice) :
  geometryShader (physicalDeviceFeatures pd) = false
  ∨ isComplete (findQueueFamilies pd) = false
  ∨ graphicsFamily (findQueueFamilies pd) = -1
  ∨ presentFamily (findQueueFamilies pd) = -1
  ∨ (∃ e, e ∈ requestedDeviceExtensions ∧ e ∉ deviceExtensionProperties pd)
  ∨ formats (querySwapChainSupport pd) = []
  ∨ presentModes (querySwapChainSupport pd) = [] →
  ratePhysicalDevice pd = 0.
Proof.
  intros H. rewrite ratePhysicalDevice_cases.
  destruct (meetsRequirements pd) eqn:Hm; [| reflexivity]. exfalso.
  unfold meetsRequirements in Hm.
  repeat (apply andb_prop in Hm; destruct Hm as [Hm ?]).
  destruct H as [H | [H | [H | [H | [(e & He & Hn) | [H | H]]]]]].
  - congruence.
  - congruence.
  - unfold isComplete in *. rewrite H in *. discriminate.
  - unfold isComplete in *. rewrite H in *.
    rewrite andb_false_r in *. discriminate.
  - apply Hn. by apply checkPhysicalDeviceExtensionSupport_all.
  - rewrite H in *. discriminate.
  - rewrite H in *. discriminate.
Qed.

Lemma ratePhysicalDevice_zero_on_failed_requirement_witness :
  geometryShader (physicalDeviceFeatures noGeometry) = false
  ∧ plainScore noGeometry = 9192
  ∧ ratePhysicalDevice noGeometry = 0.
Proof.
  split; [reflexivity |]. split; [reflexivity |].
  apply (ratePhysicalDevice_zero_on_failed_requirement noGeometry).
  left. reflexivity.
Defined.

(** C4 as the specification states it fails: a discrete device that
    meets every requirement and reports the limit 4294967295 is rated
    999, while 1000 plus its limit is 4294968295. *)
Lemma ratePhysicalDevice_wraps_around :
  meetsRequirements hugeLimitDiscrete = true
  ∧ ratePhysicalDevice hugeLimitDiscrete = 999
  ∧ plainScore hugeLimitDiscrete = 4294968295
  ∧ ¬ (∀ pd, meetsRequirements pd = true →
         ratePhysicalDevice pd = plainScore pd).
Proof.
  split; [reflexivity |]. split; [reflexivity |]. split; [reflexivity |].
  intros H. specialize (H hugeLimitDiscrete eq_refl). discriminate H.
Qed.

(** ** The score table *)

Section Multimap.
Context {V : Type}.
Implicit Types (m : multimap V) (kv e : Z * V).

Lemma multimap_insert_elem kv m e :
  e ∈ multimap_insert kv m → e = kv ∨ e ∈ m.
Proof.
  induction m as [|e' rest IH]; simpl.
  - intros ->%list_elem_of_singleton. by left.
  - destruct (kv.1 <? e'.1).
    + intros [->|H]%elem_of_cons; [by left | by right].
    + intros [->|H]%elem_of_cons; [right; left |].
      destruct (IH H) as [->|?]; [by left | right; by right].
Qed.

Lemma multimap_insert_ordered kv m :
  keyOrdered m → keyOrdered (multimap_insert kv m).
Proof.
  unfold keyOrdered. induction 1 as [|e rest Hs IH Hall]; simpl.
  - repeat constructor.
  - destruct (kv.1 <? e.1) eqn:Hlt.
    + apply Z.ltb_lt in Hlt. constructor; [by constructor |].
      constructor; [lia |].
      eapply Forall_impl; [exact Hall | simpl; intros; lia].
    + apply Z.ltb_ge in Hlt. constructor; [exact IH |].
      apply Forall_forall. intros x [->|Hx]%multimap_insert_elem; [lia |].
      by eapply Forall_forall in Hall.
Qed.

Lemma multimap_insert_nonempty kv m : multimap_insert kv m ≠ [].
Proof. destruct m as [|e rest]; simpl; [done |]. by destruct (kv.1 <? e.1). Qed.

Lemma rbegin_insert kv m :
  keyOrdered m →
  rbegin (multimap_insert kv m)
  = match rbegin m with
    | None => Some kv
    | Some e => if kv.1 <? e.1 then Some e else Some kv
    end.
Proof.
  unfold rbegin, keyOrdered. induction 1 as [|e rest Hs IH Hall]; [done |].
  simpl multimap_insert. destruct (kv.1 <? e.1) eqn:Hlt.
  - change (last (kv :: e :: rest)) with (last (e :: rest)).
    destruct (last (e :: rest)) as [l|] eqn:Hl; [| by apply last_None in Hl].
    assert (e.1 <= l.1) as Hle.
    { destruct rest as [|e2 rest2]; [injection Hl as <-; lia |].
      change (last (e :: e2 :: rest2)) with (last (e2 :: rest2)) in Hl.
      apply last_Some_elem_of in Hl. by eapply Forall_forall in Hall. }
    apply Z.ltb_lt in Hlt. by rewrite (proj2 (Z.ltb_lt _ _)) by lia.
  - destruct (multimap_insert kv rest) as [|e2 rest2] eqn:Hins;
      [by apply multimap_insert_nonempty in Hins |].
    change (last (e :: e2 :: rest2)) with (last (e2 :: rest2)).
    rewrite IH. destruct rest as [|e3 rest3]; simpl; [by rewrite Hlt | done].
Qed.
End Multimap.

Lemma scoreTable_snoc devs x :
  scoreTable (devs ++ [x])
  = multimap_insert (ratePhysicalDevice x, x) (scoreTable devs).
Proof. unfold scoreTable. by rewrite foldl_app. Qed.

Lemma scoreTable_ordered devs : keyOrdered (scoreTable devs).
Proof.
  induction devs as [|x devs IH] using rev_ind.
  - constructor.
  - rewrite scoreTable_snoc. by apply multimap_insert_ordered.
Qed.

Lemma scoreTable_rbegin devs :
  devs ≠ [] →
  ∃ pre d post,
    devs = pre ++ d :: post
    ∧ Forall (fun x => ratePhysicalDevice x <= ratePhysicalDevice d) pre
    ∧ Forall (fun x => ratePhysicalDevice x < ratePhysicalDevice d) post
    ∧ rbegin (scoreTable devs) = Some (ratePhysicalDevice d, d).
Proof.
  induction devs as [|x devs IH] using rev_ind; [done |]. intros _.
  rewrite scoreTable_snoc, rbegin_insert by apply scoreTable_ordered.
  destruct (decide (devs = [])) as [->|Hne].
  - exists [], x, []. by repeat split.
  - destruct (IH Hne) as (pre & d & post & Heq & Hpre & Hpost & Hlast).
    rewrite Hlast. simpl. destruct (ratePhysicalDevice x <? ratePhysicalDevice d) eqn:Hlt.
    + apply Z.ltb_lt in Hlt. exists pre, d, (post ++ [x]).
      rewrite Heq, <- app_assoc. repeat split; try done.
      apply Forall_app. split; [done | by repeat constructor].
    + apply Z.ltb_ge in Hlt. exists (pre ++ d :: post), x, [].
      rewrite Heq. repeat split; try done.
      apply Forall_app. split.
      * eapply Forall_impl; [exact Hpre | simpl; intros; lia].
      * constructor; [lia |].
        eapply Forall_impl; [exact Hpost | simpl; intros; lia].
Qed.

(** ** Device selection *)

(** The last branch of [pickPhysicalDevice] is never taken. *)
Lemma scoreTable_nonempty devs : devs ≠ [] → rbegin (scoreTable devs) ≠ None.
Proof.
  intros Hne. destruct (scoreTable_rbegin devs Hne) as (? & ? & ? & _ & _ & _ & H).
  by rewrite H.
Qed.

Lemma pickPhysicalDevice_cases devs :
  devs ≠ [] →
  ∃ pre d post,
    devs = pre ++ d :: post
    ∧ Forall (fun x => ratePhysicalDevice x <= ratePhysicalDevice d) pre
    ∧ Forall (fun x => ratePhysicalDevice x < ratePhysicalDevice d) post
    ∧ rbegin (scoreTable devs) = Some (ratePhysicalDevice d, d)
    ∧ pickPhysicalDevice devs
      = if 0 <? ratePhysicalDevice d then inr d else inl NoSuitableDevice.
Proof.
  intros Hne.
  destruct (scoreTable_rbegin devs Hne)
    as (pre & d & post & Heq & Hpre & Hpost & Hlast).
  exists pre, d, post. repeat split; try assumption.
  unfold pickPhysicalDevice. rewrite Hlast.
  destruct devs; [done | reflexivity].
Qed.

(** C4, as the code has it. For a device that meets the four hard
    requirements, and for which 1000 for a discrete GPU, else 0, plus
    the limit [maxImageDimension2D] does not exceed [INT_MAX], the score
    is exactly that sum. A discrete device with limit 8192 is rated
    9192, an integrated one with limit 16384 is rated 16384, and of
    these two the integrated device is selected, in either enumeration
    order. *)
Theorem ratePhysicalDevice_score :
  (∀ pd : PhysicalDevice,
     meetsRequirements pd = true →
     0 <= maxImageDimension2D (physicalDeviceProperties pd) →
     plainScore pd <= INT_MAX →
     ratePhysicalDevice pd = plainScore pd)
  ∧ ratePhysicalDevice discreteA = 9192
  ∧ ratePhysicalDevice integratedB = 16384
  ∧ pickPhysicalDevice [discreteA; integratedB] = inr integratedB
  ∧ pickPhysicalDevice [integratedB; discreteA] = inr integratedB.
Proof.
  split; [| repeat split; vm_compute; reflexivity].
  intros pd Hm Hdim Hmax. rewrite ratePhysicalDevice_cases, Hm.
  apply to_int32_small. split; [| exact Hmax].
  unfold plainScore in *. destruct (isDiscrete _); lia.
Qed.

Lemma ratePhysicalDevice_score_witness :
  meetsRequirements discreteTwin = true
  ∧ plainScore discreteTwin <= INT_MAX
  ∧ ratePhysicalDevice discreteTwin = 1000 + 8192.
Proof.
  split; [reflexivity |]. split; [vm_compute; discriminate |].
  apply (proj1 ratePhysicalDevice_score discreteTwin).
  - reflexivity.
  - vm_compute; discriminate.
  - vm_compute; discriminate.
Defined.

(** C1 as the specification states it fails: two devices without a
    geometry shader are tied at the maximum score 0, and an enumeration
    of a device rated below 0 and one rated 0 has the unique maximum 0;
    in both the selector throws [NoSuitableDevice] and selects no
    device. *)
Lemma pickPhysicalDevice_selects_nothing_at_zero :
  ratePhysicalDevice noGeometry = 0
  ∧ pickPhysicalDevice [noGeometry; noGeometry] = inl NoSuitableDevice
  ∧ ratePhysicalDevice halfRangeIntegrated < 0
  ∧ pickPhysicalDevice [halfRangeIntegrated; noGeometry] = inl NoSuitableDevice
  ∧ ¬ (∀ devs : list PhysicalDevice,
         devs ≠ [] →
         ∃ pre d post,
           devs = pre ++ d :: post
           ∧ Forall (fun x => ratePhysicalDevice x <= ratePhysicalDevice d) devs
           ∧ Forall (fun x => ratePhysicalDevice x < ratePhysicalDevice d) post
           ∧ pickPhysicalDevice devs = inr d).
Proof.
  split; [reflexivity |]. split; [reflexivity |]. split; [reflexivity |].
  split; [reflexivity |]. intros H.
  destruct (H [noGeometry; noGeometry]) as (pre & d & post & _ & _ & _ & Hpick);
    [discriminate |].
  discriminate Hpick.
Qed.

(** C1, as the code has it. The selector takes the entry [rbegin] of
    the score table, and that entry is the device [d] whose score no
    enumerated device exceeds and after which every enumerated device
    scores strictly less: the last device of the group tied at the
    maximum, hence the maximum-scoring device when the maximum is
    unique. When that maximum score is above 0, [d] is the selected
    device; when it is 0 or below, no device is selected and the
    selector throws [NoSuitableDevice]. *)
Theorem pickPhysicalDevice_last_of_maximum (devs : list PhysicalDevice) :
  devs ≠ [] →
  ∃ pre d post,
    devs = pre ++ d :: post
    ∧ Forall (fun x => ratePhysicalDevice x <= ratePhysicalDevice d) devs
    ∧ Forall (fun x => ratePhysicalDevice x < ratePhysicalDevice d) post
    ∧ rbegin (scoreTable devs) = Some (ratePhysicalDevice d, d)
    ∧ (0 < ratePhysicalDevice d → pickPhysicalDevice devs = inr d)
    ∧ (ratePhysicalDevice d <= 0 →
       pickPhysicalDevice devs = inl NoSuitableDevice).
Proof.
  intros Hne.
  destruct (pickPhysicalDevice_cases devs Hne)
    as (pre & d & post & Heq & Hpre & Hpost & Hlast & Hpick).
  exists pre, d, post. repeat split; try assumption.
  - rewrite Heq. apply Forall_app. split; [exact Hpre |].
    constructor; [lia |].
    eapply Forall_impl; [exact Hpost | simpl; intros; lia].
  - intros Hpos. rewrite Hpick.
    by rewrite (proj2 (Z.ltb_lt _ _) Hpos).
  - intros Hle. rewrite Hpick.
    by rewrite (proj2 (Z.ltb_ge _ _) Hle).
Qed.

Lemma pickPhysicalDevice_last_of_maximum_witness :
  ratePhysicalDevice discreteA = ratePhysicalDevice discreteTwin
  ∧ pickPhysicalDevice [discreteA; integratedB; discreteTwin; integratedB]
    = inr integratedB
  ∧ ∃ pre d post,
      [discreteA; discreteTwin] = pre ++ d :: post
      ∧ Forall (fun x => ratePhysicalDevice x < ratePhysicalDevice d) post
      ∧ rbegin (scoreTable [discreteA; discreteTwin])
        = Some (ratePhysicalDevice d, d).
Proof.
  split; [reflexivity |]. split; [vm_compute; reflexivity |].
  destruct (pickPhysicalDevice_last_of_maximum [discreteA; discreteTwin])
    as (pre & d & post & Heq & _ & Hpost & Hlast & _ & _); [discriminate |].
  exists pre, d, post. repeat split; assumption.
Defined.

Example pickPhysicalDevice_tie_later_wins :
  pickPhysicalDevice [discreteA; discreteTwin] = inr discreteTwin
  ∧ pickPhysicalDevice [discreteTwin; discreteA] = inr discreteA
  ∧ pickPhysicalDevice [discreteA; noGeometry; discreteTwin; noGeometry]
    = inr discreteTwin.
Proof. repeat split; vm_compute; reflexivity. Qed.

(** C5 as the specification states it fails: a single integrated device
    that meets every requirement and reports the limit 2^31 is rated
    -2147483648, which is not 0, and the selector fails with
    [NoSuitableDevice]. *)
Lemma pickPhysicalDevice_negative_score :
  meetsRequirements halfRangeIntegrated = true
  ∧ ratePhysicalDevice halfRangeIntegrated = -2147483648
  ∧ pickPhysicalDevice [halfRangeIntegrated] = inl NoSuitableDevice
  ∧ ¬ (∀ devs,
         pickPhysicalDevice devs = inl NoSuitableDevice
         ↔ devs ≠ [] ∧ Forall (fun d => ratePhysicalDevice d = 0) devs).
Proof.
  split; [reflexivity |]. split; [reflexivity |]. split; [reflexivity |].
  intros H. destruct (proj1 (H [halfRangeIntegrated]) eq_refl) as [_ Hall].
  apply Forall_inv in Hall. discriminate Hall.
Qed.

(** C5, as the code has it. The selector fails with [NoDeviceDetected]
    exactly when no device is enumerated; it fails with
    [NoSuitableDevice] exactly when at least one device is enumerated
    and no enumerated device scores above 0, which includes the case
    that every device scores 0; when some device scores above 0 it
    succeeds and selects an enumerated device. *)
Theorem pickPhysicalDevice_outcome (devs : list PhysicalDevice) :
  (pickPhysicalDevice devs = inl NoDeviceDetected ↔ devs = [])
  ∧ (pickPhysicalDevice devs = inl NoSuitableDevice
     ↔ devs ≠ [] ∧ Forall (fun d => ratePhysicalDevice d <= 0) devs)
  ∧ (devs ≠ [] → Forall (fun d => ratePhysicalDevice d = 0) devs →
     pickPhysicalDevice devs = inl NoSuitableDevice)
  ∧ ((∃ d, d ∈ devs ∧ 0 < ratePhysicalDevice d) →
     ∃ d', d' ∈ devs ∧ 0 < ratePhysicalDevice d'
           ∧ pickPhysicalDevice devs = inr d').
Proof.
  destruct (decide (devs = [])) as [->|Hne].
  - repeat split; try done.
    + intros [? _]. done.
    + intros (d & Hd & _). by apply elem_of_nil in Hd.
  - destruct (pickPhysicalDevice_cases devs Hne)
      as (pre & d & post & Heq & Hpre & Hpost & _ & Hpick).
    assert (Forall (fun x => ratePhysicalDevice x <= ratePhysicalDevice d) devs)
      as Hmax.
    { rewrite Heq. apply Forall_app. split; [exact Hpre |].
      constructor; [lia |].
      eapply Forall_impl; [exact Hpost | simpl; intros; lia]. }
    assert (d ∈ devs) as Hin by (rewrite Heq; set_solver).
    rewrite Hpick.
    destruct (0 <? ratePhysicalDevice d) eqn:Hpos;
      [apply Z.ltb_lt in Hpos | apply Z.ltb_ge in Hpos].
    + repeat split; try done.
      * intros [_ Hall]. rewrite Forall_forall in Hall.
        specialize (Hall d Hin). simpl in Hall. lia.
      * intros _ Hall. rewrite Forall_forall in Hall.
        specialize (Hall d Hin). simpl in Hall. lia.
      * intros _. by exists d.
    + repeat split; try done.
      * eapply Forall_impl; [exact Hmax | simpl; intros; lia].
      * intros (x & Hx & Hxpos). rewrite Forall_forall in Hmax.
        specialize (Hmax x Hx). simpl in Hmax. lia.
Qed.

Lemma pickPhysicalDevice_outcome_witness :
  (∃ d, d ∈ [noGeometry; discreteA] ∧ 0 < ratePhysicalDevice d)
  ∧ (∃ d', d' ∈ [noGeometry; discreteA]
           ∧ pickPhysicalDevice [noGeometry; discreteA] = inr d')
  ∧ pickPhysicalDevice [noGeometry; noGeometry] = inl NoSuitableDevice
  ∧ pickPhysicalDevice [] = inl NoDeviceDetected.
Proof.
  assert (∃ d, d ∈ [noGeometry; discreteA] ∧ 0 < ratePhysicalDevice d) as H.
  { exists discreteA. split; [do 2 constructor | reflexivity]. }
  split; [exact H |]. split.
  - destruct (proj2 (proj2 (proj2
      (pickPhysicalDevice_outcome [noGeometry; discreteA]))) H)
      as (d' & Hin & _ & Hpick).
    exists d'. by split.
  - split.
    + apply (proj1 (proj2 (proj2
        (pickPhysicalDevice_outcome [noGeometry; noGeometry])))).
      * discriminate.
      * repeat constructor.
    + by apply (proj1 (pickPhysicalDevice_outcome [])).
Defined.

(** ** Layer and extension checks *)

Lemma nameFound_elem requested available :
  nameFound requested available = true ↔ requested ∈ available.
Proof.
  induction available as [|a rest IH]; simpl.
  - split; [discriminate | by intros ?%elem_of_nil].
  - destruct (String.eqb requested a) eqn:Heq.
    + apply String.eqb_eq in Heq as ->. split; [intros _; left | done].
    + apply String.eqb_neq in Heq. rewrite IH, elem_of_cons.
      split; [by right | by intros [?|?]].
Qed.

Lemma allFound_true requested available :
  allFound requested available = true
  ↔ ∀ r, r ∈ requested → r ∈ available.
Proof.
  induction requested as [|x rest IH]; simpl.
  - split; [by intros _ r ?%elem_of_nil | done].
  - destruct (nameFound x available) eqn:Hx.
    + apply nameFound_elem in Hx. rewrite IH. split.
      * intros H r [->|Hr]%elem_of_cons; auto.
      * intros H r Hr. apply H. by right.
    + split; [discriminate |]. intros H.
      assert (nameFound x available = true) as Hy
        by (apply nameFound_elem, H; left).
      congruence.
Qed.

Lemma allFound_false requested available :
  allFound requested available = false
  ↔ ∃ r, r ∈ requested ∧ r ∉ available.
Proof.
  induction requested as [|x rest IH]; simpl.
  - split; [discriminate | by intros (r & ?%elem_of_nil & _)].
  - destruct (nameFound x available) eqn:Hx.
    + apply nameFound_elem in Hx. rewrite IH. split.
      * intros (r & Hr & Hn). exists r. split; [by right | done].
      * intros (r & [->|Hr]%elem_of_cons & Hn); [done | by exists r].
    + split; [| done]. intros _. exists x. split; [left |].
      intros Hin%nameFound_elem. congruence.
Qed.

Lemma issued_nothing app : issued app app = [].
Proof. unfold issued. apply drop_all. Qed.

(** C7 as the specification states it fails: on a driver that offers
    neither the validation layer nor the debug report extension a
    requested extension is missing, and [createInstance] fails with
    [UnsupportedLayer], not with [UnsupportedExtension]. *)
Lemma createInstance_layer_error_first :
  missingLayer driverWithoutLayerAndDebugReport
  ∧ missingExtension driverWithoutLayerAndDebugReport
  ∧ createInstance driverWithoutLayerAndDebugReport newApplication
    = (inl UnsupportedLayer, newApplication)
  ∧ ¬ (∀ drv app,
         (missingLayer drv →
          (createInstance drv app).1 = inl UnsupportedLayer)
         ∧ (missingExtension drv →
            (createInstance drv app).1 = inl UnsupportedExtension)).
Proof.
  assert (missingExtension driverWithoutLayerAndDebugReport) as He
    by (apply allFound_false; reflexivity).
  split; [apply allFound_false; reflexivity |]. split; [exact He |].
  split; [reflexivity |]. intros H.
  destruct (H driverWithoutLayerAndDebugReport newApplication) as [_ H2].
  specialize (H2 He). discriminate H2.
Qed.

(** C7, as the code has it. The layer check runs first: when a
    requested validation layer is missing from the driver's layer list,
    [createInstance] fails with [UnsupportedLayer], whatever the
    extension list is. When every requested layer is offered and a
    requested instance extension is missing from the driver's extension
    list, [createInstance] fails with [UnsupportedExtension], the
    failure of the extension check. In every such case the application
    is left as it was: no call, and so no [vkCreateInstance], has been
    issued. *)
Theorem createInstance_rejects_missing (drv : Driver)
    (app : HelloTriangleApplication) :
  missingLayer drv ∨ missingExtension drv →
  ∃ err,
    createInstance drv app = (inl err, app)
    ∧ issued app (createInstance drv app).2 = []
    ∧ (missingLayer drv → err = UnsupportedLayer)
    ∧ (missingExtension drv →
       getRequestedExtensions drv = inl UnsupportedExtension)
    ∧ (missingExtension drv → ¬ missingLayer drv →
       err = UnsupportedExtension).
Proof.
  intros Hmiss.
  assert (missingExtension drv →
          getRequestedExtensions drv = inl UnsupportedExtension) as Hext.
  { intros H. apply allFound_false in H. unfold getRequestedExtensions.
    simpl. unfold requestedExtensions in H. by rewrite H. }
  destruct (checkValidationLayerSupport drv) eqn:Hl.
  - assert (¬ missingLayer drv) as Hno.
    { intros (l & Hin & Hn). apply Hn.
      unfold checkValidationLayerSupport in Hl.
      by apply (proj1 (allFound_true _ _) Hl). }
    destruct Hmiss as [? | Hm]; [done |].
    assert (createInstance drv app = (inl UnsupportedExtension, app)) as Hc.
    { unfold createInstance, mbind, M_bind. simpl. rewrite Hl. simpl.
      rewrite (Hext Hm). reflexivity. }
    exists UnsupportedExtension. rewrite Hc. simpl.
    repeat split; try done. apply issued_nothing.
  - assert (createInstance drv app = (inl UnsupportedLayer, app)) as Hc.
    { unfold createInstance, mbind, M_bind. simpl. rewrite Hl. reflexivity. }
    exists UnsupportedLayer. rewrite Hc. simpl.
    repeat split; try done; [apply issued_nothing |].
    intros _ Hno. exfalso. apply Hno.
    by apply allFound_false.
Qed.

Lemma createInstance_rejects_missing_witness :
  missingLayer driverWithoutLayer
  ∧ missingExtension driverWithoutDebugReport
  ∧ createInstance driverWithoutLayer newApplication
    = (inl UnsupportedLayer, newApplication)
  ∧ createInstance driverWithoutDebugReport newApplication
    = (inl UnsupportedExtension, newApplication).
Proof.
  assert (missingLayer driverWithoutLayer) as Hl.
  { exists "VK_LAYER_LUNARG_standard_validation".
    split; [constructor | by intros ?%elem_of_nil]. }
  assert (missingExtension driverWithoutDebugReport) as He.
  { apply allFound_false. reflexivity. }
  split; [exact Hl |]. split; [exact He |]. split.
  - destruct (createInstance_rejects_missing driverWithoutLayer
                newApplication (or_introl Hl)) as (err & Hc & _ & Herr & _).
    rewrite Hc. by rewrite (Herr Hl).
  - destruct (createInstance_rejects_missing driverWithoutDebugReport
                newApplication (or_intror He)) as (err & Hc & _ & _ & _ & Herr).
    rewrite Hc. rewrite Herr; [reflexivity | exact He |].
    intros (l & Hin & Hn). apply Hn.
    apply list_elem_of_singleton in Hin as ->. constructor.
Defined.

(** ** Stepping through member functions *)

Lemma bind_returns {A B} (m : M A) (f : A → M B) app b app' :
  (m ≫= f) app = (inr b, app') →
  ∃ a app1, m app = (inr a, app1) ∧ f a app1 = (inr b, app').
Proof.
  unfold mbind, M_bind. destruct (m app) as [[e|a] app1]; [discriminate |].
  intros H. by exists a, app1.
Qed.

Lemma issue_calls c app :
  issue c app
  = (inr (), {| physicalDevice := physicalDevice app;
                graphicsQueue := graphicsQueue app;
                presentQueue := presentQueue app;
                calls := calls app ++ [c] |}).
Proof. reflexivity. Qed.

Lemma issued_app app app' l :
  calls app' = calls app ++ l → issued app app' = l.
Proof. unfold issued. intros ->. by rewrite drop_app_length. Qed.

Lemma createInstance_returns drv app app' :
  createInstance drv app = (inr (), app') →
  ∃ createInfo, calls app' = calls app ++ [vkCreateInstance createInfo].
Proof.
  unfold createInstance. intros H.
  apply bind_returns in H as ([] & app1 & H1 & H).
  assert (app1 = app) as ->.
  { destruct (enableValidationLayers && _); [discriminate |].
    by injection H1 as <-. }
  apply bind_returns in H as (extensions & app2 & H2 & H).
  assert (app2 = app) as ->.
  { destruct (getRequestedExtensions drv); [discriminate |].
    by injection H2 as _ <-. }
  apply bind_returns in H as ([] & app3 & H3 & H).
  rewrite issue_calls in H3. injection H3 as <-.
  destruct (is_success _); [| discriminate].
  injection H as <-. simpl. eauto.
Qed.

Lemma setupDebugCallback_returns drv app app' :
  setupDebugCallback drv app = (inr (), app') →
  calls app' = calls app ++ [vkCreateDebugReportCallbackEXT].
Proof.
  unfold setupDebugCallback. simpl. intros H.
  apply bind_returns in H as (r & app1 & H1 & H).
  unfold CreateDebugReportCallbackEXT in H1.
  destruct (instanceProcAddr drv _).
  - apply bind_returns in H1 as ([] & app2 & H2 & H1).
    rewrite issue_calls in H2. injection H2 as <-.
    injection H1 as <- <-.
    destruct (is_success _); [| discriminate]. by injection H as <-.
  - injection H1 as <- <-. discriminate.
Qed.

Lemma createSurface_returns drv app app' :
  createSurface drv app = (inr (), app') →
  calls app' = calls app ++ [glfwCreateWindowSurface].
Proof.
  unfold createSurface. intros H.
  apply bind_returns in H as ([] & app1 & H1 & H).
  rewrite issue_calls in H1. injection H1 as <-.
  destruct (is_success _); [| discriminate]. by injection H as <-.
Qed.

Lemma createLogicalDevice_cases drv pd app :
  let indices := findQueueFamilies pd in
  let createInfo := deviceCreateInfo indices in
  let g := to_uint32 (graphicsFamily indices) in
  let p := to_uint32 (presentFamily indices) in
  if is_success (deviceResult drv pd createInfo)
  then createLogicalDevice drv pd app
       = (inr (),
          {| physicalDevice := physicalDevice app;
             graphicsQueue := Some (g, 0);
             presentQueue := Some (p, 0);
             calls := calls app ++ [vkCreateDevice pd createInfo;
                                    vkGetDeviceQueue g 0;
                                    vkGetDeviceQueue p 0] |})
  else createLogicalDevice drv pd app
       = (inl LogicalDeviceCreationFailed,
          {| physicalDevice := physicalDevice app;
             graphicsQueue := graphicsQueue app;
             presentQueue := presentQueue app;
             calls := calls app ++ [vkCreateDevice pd createInfo] |}).
Proof.
  intros indices createInfo g p.
  unfold createLogicalDevice, mbind, M_bind. fold indices createInfo.
  rewrite issue_calls. destruct (is_success _); [| reflexivity].
  simpl. rewrite <- !app_assoc. reflexivity.
Qed.

Lemma set_insert_pair (g p : Z) :
  set_insert p (set_insert g [])
  = if g =? p then [g] else if g <? p then [g; p] else [p; g].
Proof.
  simpl. destruct (p <? g) eqn:H1, (p =? g) eqn:H2, (g =? p) eqn:H3,
    (g <? p) eqn:H4; try reflexivity; lia.
Qed.

(** C6. For a device whose queue families are resolved, the creation
    request names each distinct family among [graphicsFamily] and
    [presentFamily] once, in ascending order, so one family when the two
    are equal and two otherwise; every entry asks for one queue at
    priority 1.0; no feature is enabled. When the driver accepts the
    request, exactly [vkCreateDevice] and the two queue fetches are
    issued, and the graphics and presentation queues are queue 0 of the
    graphics family and of the presentation family. *)
Theorem createLogicalDevice_queue_requests (drv : Driver)
    (pd : PhysicalDevice) (app : HelloTriangleApplication) :
  let indices := findQueueFamilies pd in
  let createInfo := deviceCreateInfo indices in
  let g := graphicsFamily indices in
  let p := presentFamily indices in
  isComplete indices = true →
  Z.of_nat (length (queueFamilyProperties pd)) <= 2 ^ 32 →
  queueFamilyIndex <$> queueCreateInfos createInfo
    = (if g =? p then [g] else if g <? p then [g; p] else [p; g])
  ∧ NoDup (queueFamilyIndex <$> queueCreateInfos createInfo)
  ∧ (g = p → length (queueCreateInfos createInfo) = 1%nat)
  ∧ (g ≠ p → length (queueCreateInfos createInfo) = 2%nat)
  ∧ Forall (fun info => queueCreateCount info = 1
                        ∧ queuePriorities info = [1%Q])
      (queueCreateInfos createInfo)
  ∧ enabledFeatures createInfo
    = {| geometryShader := false; logicOp := false |}
  ∧ (is_success (deviceResult drv pd createInfo) = true →
     ∃ app',
       createLogicalDevice drv pd app = (inr (), app')
       ∧ issued app app' = [vkCreateDevice pd createInfo;
                            vkGetDeviceQueue g 0; vkGetDeviceQueue p 0]
       ∧ graphicsQueue app' = Some (g, 0)
       ∧ presentQueue app' = Some (p, 0)).
Proof.
  intros indices createInfo g p Hc Hlen.
  destruct (findQueueFamilies_range pd) as [Hg Hp].
  fold indices in Hg, Hp. fold g in Hg. fold p in Hp.
  unfold isComplete in Hc. fold g p in Hc.
  apply andb_prop in Hc as [Hg0%Z.leb_le Hp0%Z.leb_le].
  assert (to_uint32 g = g) as Hug by (apply Z.mod_small; lia).
  assert (to_uint32 p = p) as Hup by (apply Z.mod_small; lia).
  assert (queueCreateInfos createInfo
          = queueCreateInfoFor <$>
              (if g =? p then [g] else if g <? p then [g; p] else [p; g]))
    as Hinfos by (unfold createInfo, deviceCreateInfo;
                  cbn [queueCreateInfos]; by rewrite set_insert_pair).
  rewrite Hinfos.
  destruct (g =? p) eqn:Heq; [apply Z.eqb_eq in Heq | apply Z.eqb_neq in Heq].
  - simpl. rewrite Hug. repeat split; try done.
    + apply NoDup_singleton.
    + repeat constructor.
    + intros Hok. pose proof (createLogicalDevice_cases drv pd app) as H.
      simpl in H. fold indices createInfo g p in H. rewrite Hok in H.
      rewrite Hug, Hup in H. eexists. split; [exact H |].
      split; [by apply issued_app | done].
  - assert (length (queueCreateInfoFor <$>
                      (if g <? p then [g; p] else [p; g])) = 2%nat)
      as Htwo by (by destruct (g <? p)).
    repeat split; try done.
    + destruct (g <? p); simpl; by rewrite Hug, Hup.
    + destruct (g <? p) eqn:Hlt; simpl; rewrite Hug, Hup;
        apply NoDup_cons; (split; [by intros ->%list_elem_of_singleton |]);
        apply NoDup_singleton.
    + destruct (g <? p); repeat constructor.
    + intros Hok. pose proof (createLogicalDevice_cases drv pd app) as H.
      simpl in H. fold indices createInfo g p in H. rewrite Hok in H.
      rewrite Hug, Hup in H. eexists. split; [exact H |].
      split; [by apply issued_app | done].
Qed.

Lemma createLogicalDevice_queue_requests_witness :
  findQueueFamilies integratedB = {| graphicsFamily := 0; presentFamily := 0 |}
  ∧ length (queueCreateInfos (deviceCreateInfo (findQueueFamilies integratedB)))
    = 1%nat
  ∧ findQueueFamilies splitFamilies
    = {| graphicsFamily := 0; presentFamily := 1 |}
  ∧ queueFamilyIndex
      <$> queueCreateInfos (deviceCreateInfo (findQueueFamilies splitFamilies))
    = [0; 1].
Proof.
  split; [reflexivity |]. split.
  - apply (createLogicalDevice_queue_requests workingDriver integratedB
             newApplication); [reflexivity | vm_compute; discriminate |].
    reflexivity.
  - split; [reflexivity |].
    apply (createLogicalDevice_queue_requests workingDriver splitFamilies
             newApplication); [reflexivity | vm_compute; discriminate].
Defined.

(** ** Start-up and teardown *)

Lemma initVulkan_returns drv app app1 :
  initVulkan drv app = (inr (), app1) →
  ∃ instanceInfo pd deviceInfo g p,
    calls app1
    = calls app ++ [vkCreateInstance instanceInfo;
                    vkCreateDebugReportCallbackEXT;
                    glfwCreateWindowSurface;
                    vkCreateDevice pd deviceInfo;
                    vkGetDeviceQueue g 0;
                    vkGetDeviceQueue p 0]
    ∧ pickPhysicalDevice (physicalDevices drv) = inr pd
    ∧ physicalDevice app1 = Some pd.
Proof.
  unfold initVulkan. intros H.
  apply bind_returns in H as ([] & a1 & H1 & H).
  apply createInstance_returns in H1 as (instanceInfo & H1).
  apply bind_returns in H as ([] & a2 & H2 & H).
  apply setupDebugCallback_returns in H2.
  apply bind_returns in H as ([] & a3 & H3 & H).
  apply createSurface_returns in H3.
  apply bind_returns in H as (pd & a4 & H4 & H).
  destruct (pickPhysicalDevice (physicalDevices drv)) as [e|pd'] eqn:Hpick;
    [discriminate |].
  injection H4 as -> <-.
  apply bind_returns in H as ([] & a5 & H5 & H).
  injection H5 as <-.
  pose proof (createLogicalDevice_cases drv pd
    {| physicalDevice := Some pd; graphicsQueue := graphicsQueue a3;
       presentQueue := presentQueue a3; calls := calls a3 |}) as Hdev.
  simpl in Hdev. rewrite H in Hdev.
  destruct (is_success _); [| discriminate].
  injection Hdev as ->. simpl.
  eexists instanceInfo, pd, _, _, _. split; [| done].
  rewrite H3, H2, H1, <- !app_assoc. reflexivity.
Qed.

Lemma cleanup_calls drv app :
  ∃ app2,
    cleanup drv app = (inr (), app2)
    ∧ calls app2 = calls app ++ cleanupCalls drv.
Proof.
  unfold cleanup, DestroyDebugReportCallbackEXT, cleanupCalls.
  unfold mbind, M_bind, issue.
  destruct (instanceProcAddr drv _); simpl;
    (eexists; split; [reflexivity |]); simpl; by rewrite <- !app_assoc.
Qed.

(** C9 as the specification states it fails: with a driver on which
    every step succeeds, the objects are acquired in the order context,
    debug sink, surface, logical device, and [cleanup] releases the
    logical device, then the debug sink, then the surface, then the
    context, which is not the reverse of the acquisition order. *)
Lemma cleanup_not_reverse_of_acquisition :
  let app1 := (initVulkan workingDriver newApplication).2 in
  let app2 := (cleanup workingDriver app1).2 in
  (initVulkan workingDriver newApplication).1 = inr ()
  ∧ (cleanup workingDriver app1).1 = inr ()
  ∧ acquisitionOrder (issued newApplication app1)
    = [Context; DebugSink; Surface; LogicalDevice]
  ∧ releaseOrder (issued app1 app2)
    = [LogicalDevice; DebugSink; Surface; Context]
  ∧ releaseOrder (issued app1 app2)
    ≠ rev (acquisitionOrder (issued newApplication app1)).
Proof.
  repeat split; try (vm_compute; reflexivity).
  vm_compute. discriminate.
Qed.

(** C9, as the code has it. When [initVulkan] completes, it has
    acquired the context, the debug sink, the surface and the logical
    device, in this order. [cleanup] then destroys the logical device
    first, next the debug sink, provided [vkGetInstanceProcAddr] yields
    the entry point that destroys it (without that entry point the debug
    sink is not released), then the surface and then the context,
    before it destroys the window: the debug sink is released before
    the surface, not after it. *)
Theorem cleanup_release_order (drv : Driver)
    (app app1 : HelloTriangleApplication) :
  initVulkan drv app = (inr (), app1) →
  acquisitionOrder (issued app app1)
    = [Context; DebugSink; Surface; LogicalDevice]
  ∧ ∃ app2,
      cleanup drv app1 = (inr (), app2)
      ∧ issued app1 app2
        = vkDestroyDevice
          :: (if instanceProcAddr drv "vkDestroyDebugReportCallbackEXT"
              then [vkDestroyDebugReportCallbackEXT] else [])
          ++ [vkDestroySurfaceKHR; vkDestroyInstance;
              glfwDestroyWindow; glfwTerminate]
      ∧ releaseOrder (issued app1 app2)
        = (if instanceProcAddr drv "vkDestroyDebugReportCallbackEXT"
           then [LogicalDevice; DebugSink; Surface; Context]
           else [LogicalDevice; Surface; Context]).
Proof.
  intros Hinit.
  apply initVulkan_returns in Hinit
    as (instanceInfo & pd & deviceInfo & g & p & Hcalls & _).
  split.
  - by rewrite (issued_app _ _ _ Hcalls).
  - destruct (cleanup_calls drv app1) as (app2 & Hc & Hcalls2).
    exists app2. rewrite (issued_app _ _ _ Hcalls2). unfold cleanupCalls.
    split; [exact Hc |]. split; [reflexivity |].
    by destruct (instanceProcAddr drv _).
Qed.

Lemma cleanup_release_order_witness :
  (initVulkan workingDriver newApplication).1 = inr ()
  ∧ ∃ app2,
      cleanup workingDriver (initVulkan workingDriver newApplication).2
      = (inr (), app2)
      ∧ releaseOrder
          (issued (initVulkan workingDriver newApplication).2 app2)
        = [LogicalDevice; DebugSink; Surface; Context].
Proof.
  split; [vm_compute; reflexivity |].
  destruct (cleanup_release_order workingDriver newApplication
              (initVulkan workingDriver newApplication).2)
    as (_ & app2 & Hc & _ & Hr).
  - vm_compute. reflexivity.
  - exists app2. split; [exact Hc | exact Hr].
Defined.

(** * Further properties of the code *)

(** ** Swap chain choices *)

Lemma findPreferredFormat_some bf bc l f :
  findPreferredFormat bf bc l = Some f →
  f ∈ l ∧ format f = bf ∧ colorSpace f = bc.
Proof.
  induction l as [|x rest IH]; simpl; [discriminate |].
  destruct ((format x =? bf) && (colorSpace x =? bc)) eqn:Hx.
  - intros [= <-]. apply andb_prop in Hx as [?%Z.eqb_eq ?%Z.eqb_eq].
    split; [left | done].
  - intros H. destruct (IH H) as (? & ? & ?). split; [by right | done].
Qed.

Lemma findPreferredFormat_none bf bc l :
  findPreferredFormat bf bc l = None →
  ∀ f, f ∈ l → ¬ (format f = bf ∧ colorSpace f = bc).
Proof.
  induction l as [|x rest IH]; simpl; [by intros _ f ?%elem_of_nil |].
  destruct ((format x =? bf) && (colorSpace x =? bc)) eqn:Hx; [discriminate |].
  intros H f [->|Hf]%elem_of_cons; [| by apply IH].
  intros [Hf Hc]. apply andb_false_iff in Hx as [Hx|Hx];
    apply Z.eqb_neq in Hx; congruence.
Qed.

(** X1. For a non-empty list of surface formats the choice is defined.
    It is the preferred pair (B8G8R8_UNORM, SRGB_NONLINEAR) when the
    list is the single entry with the undefined format, or when the
    list offers that pair; otherwise it is the first entry of the list.
    Unless the list is that single undefined entry, the chosen format
    is one of the offered ones. *)
Theorem chooseSwapChainSurfaceFormat_choice
    (first : VkSurfaceFormatKHR) (rest : list VkSurfaceFormatKHR) :
  let offered := first :: rest in
  let preferred := {| format := VK_FORMAT_B8G8R8_UNORM;
                      colorSpace := VK_COLOR_SPACE_SRGB_NONLINEAR_KHR |} in
  ∃ chosen,
    chooseSwapChainSurfaceFormat offered = Some chosen
    ∧ (rest = [] → format first = VK_FORMAT_UNDEFINED → chosen = preferred)
    ∧ (preferred ∈ offered → chosen = preferred)
    ∧ (preferred ∉ offered →
       ¬ (rest = [] ∧ format first = VK_FORMAT_UNDEFINED) →
       chosen = first)
    ∧ (¬ (rest = [] ∧ format first = VK_FORMAT_UNDEFINED) →
       chosen ∈ offered).
Proof.
  intros offered preferred. unfold chooseSwapChainSurfaceFormat.
  fold offered.
  destruct ((Z.of_nat (length offered) =? 1)
            && match offered !! 0%nat with
               | Some f => format f =? VK_FORMAT_UNDEFINED
               | None => false
               end) eqn:Hone.
  - apply andb_prop in Hone as [Hlen%Z.eqb_eq Hund]. simpl in Hund.
    apply Z.eqb_eq in Hund.
    assert (rest = []) as Hrest
      by (destruct rest; [done | simpl in Hlen; lia]).
    exists preferred. repeat split; try done.
    + intros _ Hn. exfalso. by apply Hn.
    + intros Hn. exfalso. by apply Hn.
  - assert (¬ (rest = [] ∧ format first = VK_FORMAT_UNDEFINED)) as Hnot.
    { intros [-> Hf]. simpl in Hone. rewrite Hf in Hone. discriminate. }
    destruct (findPreferredFormat _ _ offered) as [f|] eqn:Hfind.
    + apply findPreferredFormat_some in Hfind as (Hin & Hf & Hc).
      assert (f = preferred) as Heq
        by (unfold preferred; destruct f; simpl in *; congruence).
      exists f. split; [done |].
      split; [intros Hr Hu; exfalso; by apply Hnot |].
      split; [done |].
      split; [intros Hn _; exfalso; apply Hn; by rewrite <- Heq | done].
    + pose proof (findPreferredFormat_none _ _ _ Hfind) as Hnone.
      exists first. split; [done |].
      split; [intros Hr Hu; exfalso; by apply Hnot |].
      split; [intros Hin; exfalso; by apply (Hnone preferred Hin) |].
      split; [done |]. intros _. left.
Qed.

Lemma chooseSwapChainSurfaceFormat_choice_witness :
  chooseSwapChainSurfaceFormat [{| format := 0; colorSpace := 7 |}]
    = Some {| format := 30; colorSpace := 0 |}
  ∧ chooseSwapChainSurfaceFormat
      [{| format := 44; colorSpace := 0 |}; {| format := 30; colorSpace := 0 |}]
    = Some {| format := 30; colorSpace := 0 |}
  ∧ chooseSwapChainSurfaceFormat
      [{| format := 44; colorSpace := 0 |}; {| format := 30; colorSpace := 1 |}]
    = Some {| format := 44; colorSpace := 0 |}.
Proof.
  split; [| split].
  - destruct (chooseSwapChainSurfaceFormat_choice
                {| format := 0; colorSpace := 7 |} [])
      as (c & -> & H & _).
    by rewrite H.
  - destruct (chooseSwapChainSurfaceFormat_choice
                {| format := 44; colorSpace := 0 |}
                [{| format := 30; colorSpace := 0 |}])
      as (c & -> & _ & H & _).
    rewrite H; [reflexivity |]. right. left.
  - destruct (chooseSwapChainSurfaceFormat_choice
                {| format := 44; colorSpace := 0 |}
                [{| format := 30; colorSpace := 1 |}])
      as (c & -> & _ & _ & H & _).
    rewrite H; [reflexivity | |].
    + intros [Hx|Hx]%elem_of_cons; [discriminate Hx |].
      apply list_elem_of_singleton in Hx. discriminate Hx.
    + intros [Hx _]. discriminate Hx.
Defined.

Lemma scanPresentModes_choice (modes : list VkPresentModeKHR) :
  ∀ bestMode,
    (VK_PRESENT_MODE_MAILBOX_KHR ∈ modes →
     scanPresentModes modes bestMode = VK_PRESENT_MODE_MAILBOX_KHR)
    ∧ (VK_PRESENT_MODE_MAILBOX_KHR ∉ modes →
       VK_PRESENT_MODE_IMMEDIATE_KHR ∈ modes →
       scanPresentModes modes bestMode = VK_PRESENT_MODE_IMMEDIATE_KHR)
    ∧ (VK_PRESENT_MODE_MAILBOX_KHR ∉ modes →
       VK_PRESENT_MODE_IMMEDIATE_KHR ∉ modes →
       scanPresentModes modes bestMode = bestMode).
Proof.
  induction modes as [|m rest IH]; intros bestMode; simpl.
  - split; [by intros ?%elem_of_nil |].
    split; [by intros _ ?%elem_of_nil | done].
  - destruct (m =? VK_PRESENT_MODE_MAILBOX_KHR) eqn:Hm;
      [apply Z.eqb_eq in Hm | apply Z.eqb_neq in Hm].
    + split; [done |]. split; intros Hn; exfalso; apply Hn; rewrite Hm; left.
    + destruct (m =? VK_PRESENT_MODE_IMMEDIATE_KHR) eqn:Hi;
        [apply Z.eqb_eq in Hi | apply Z.eqb_neq in Hi].
      * destruct (IH m) as (H1 & H2 & H3). split; [| split].
        -- intros [?|?]%elem_of_cons; [congruence | auto].
        -- intros Hn _.
           assert (VK_PRESENT_MODE_MAILBOX_KHR ∉ rest) as Hr
             by (intros ?; apply Hn; by right).
           destruct (decide (VK_PRESENT_MODE_IMMEDIATE_KHR ∈ rest));
             [auto | rewrite H3; auto].
        -- intros _ Hn. exfalso. apply Hn. rewrite Hi. left.
      * destruct (IH bestMode) as (H1 & H2 & H3). split; [| split].
        -- intros [?|?]%elem_of_cons; [congruence | auto].
        -- intros Hn [?|?]%elem_of_cons; [congruence |].
           apply H2; [| done]. intros ?. apply Hn. by right.
        -- intros Hn1 Hn2. apply H3; intros ?; [apply Hn1 | apply Hn2];
             by right.
Qed.

(** X2. The presentation mode chosen is MAILBOX when the list offers
    it; otherwise IMMEDIATE when the list offers that; otherwise FIFO,
    whether or not the list offers FIFO (so also for an empty list). *)
Theorem chooseSwapPresentMode_choice (modes : list VkPresentModeKHR) :
  (VK_PRESENT_MODE_MAILBOX_KHR ∈ modes →
   chooseSwapPresentMode modes = VK_PRESENT_MODE_MAILBOX_KHR)
  ∧ (VK_PRESENT_MODE_MAILBOX_KHR ∉ modes →
     VK_PRESENT_MODE_IMMEDIATE_KHR ∈ modes →
     chooseSwapPresentMode modes = VK_PRESENT_MODE_IMMEDIATE_KHR)
  ∧ (VK_PRESENT_MODE_MAILBOX_KHR ∉ modes →
     VK_PRESENT_MODE_IMMEDIATE_KHR ∉ modes →
     chooseSwapPresentMode modes = VK_PRESENT_MODE_FIFO_KHR).
Proof. apply scanPresentModes_choice. Qed.

Lemma chooseSwapPresentMode_choice_witness :
  chooseSwapPresentMode [2; 0; 1; 0] = 1
  ∧ chooseSwapPresentMode [2; 0; 3] = 0
  ∧ chooseSwapPresentMode [3] = 2.
Proof.
  split; [| split].
  - apply (proj1 (chooseSwapPresentMode_choice [2; 0; 1; 0])).
    do 3 constructor.
  - apply (proj1 (proj2 (chooseSwapPresentMode_choice [2; 0; 3]))).
    + intros H. repeat (apply elem_of_cons in H as [H|H]; [discriminate H |]).
      by apply elem_of_nil in H.
    + do 2 constructor.
  - apply (proj2 (proj2 (chooseSwapPresentMode_choice [3])));
      intros H; apply list_elem_of_singleton in H; discriminate H.
Defined.

(** X3. When the surface reports a current extent whose width is not
    the largest [uint32_t], that extent is returned unchanged. Otherwise
    the window size 800 x 600 is clamped: each component of the result
    is at least the minimum extent, is at most the maximum extent when
    the minimum does not exceed the maximum, and is the window size
    itself when that lies between the two. *)
Theorem chooseSwapExtent_bounds (capabilities : VkSurfaceCapabilitiesKHR) :
  let lo := minImageExtent capabilities in
  let hi := maxImageExtent capabilities in
  let chosen := chooseSwapExtent capabilities in
  (width (currentExtent capabilities) ≠ UINT32_MAX →
   chosen = currentExtent capabilities)
  ∧ (width (currentExtent capabilities) = UINT32_MAX →
     width lo <= width chosen
     ∧ height lo <= height chosen
     ∧ (width lo <= width hi → width chosen <= width hi)
     ∧ (height lo <= height hi → height chosen <= height hi)
     ∧ (width lo <= WIN_WIDTH <= width hi → width chosen = WIN_WIDTH)
     ∧ (height lo <= WIN_HEIGHT <= height hi → height chosen = WIN_HEIGHT)).
Proof.
  intros lo hi chosen. subst chosen. unfold chooseSwapExtent. split.
  - intros Hne. apply Z.eqb_neq in Hne. by rewrite Hne.
  - intros ->. simpl. fold lo hi. repeat split; intros; lia.
Qed.

Lemma chooseSwapExtent_bounds_witness :
  chooseSwapExtent
    {| currentExtent := {| width := 4294967295; height := 4294967295 |};
       minImageExtent := {| width := 1; height := 1 |};
       maxImageExtent := {| width := 640; height := 4096 |} |}
  = {| width := 640; height := 600 |}
  ∧ chooseSwapExtent
      {| currentExtent := {| width := 1024; height := 768 |};
         minImageExtent := {| width := 1; height := 1 |};
         maxImageExtent := {| width := 640; height := 480 |} |}
    = {| width := 1024; height := 768 |}.
Proof.
  split.
  - reflexivity.
  - apply (proj1 (chooseSwapExtent_bounds
      {| currentExtent := {| width := 1024; height := 768 |};
         minImageExtent := {| width := 1; height := 1 |};
         maxImageExtent := {| width := 640; height := 480 |} |})).
    discriminate.
Defined.

(** ** Queue family lookup, continued *)

Lemma findQueueFamilies_fields pd :
  ((graphicsFamily (findQueueFamilies pd) = -1 ∧ ∀ j, ¬ graphicsAt pd j)
   ∨ ∃ j : nat, graphicsFamily (findQueueFamilies pd) = Z.of_nat j
               ∧ graphicsAt pd j)
  ∧ ((presentFamily (findQueueFamilies pd) = -1 ∧ ∀ j, ¬ presentAt pd j)
     ∨ ∃ j : nat, presentFamily (findQueueFamilies pd) = Z.of_nat j
                 ∧ presentAt pd j).
Proof.
  unfold findQueueFamilies, graphicsAt, presentAt.
  destruct (scan_stops (surfaceSupport pd) (queueFamilyProperties pd) 0
              unresolved eq_refl) as (n & Hn & _ & Hstop & _ & Hg & Hp).
  set (r := scanQueueFamilies _ _ _ _) in *.
  assert (graphicsFamily r = -1 ∨ presentFamily r = -1 →
          n = length (queueFamilyProperties pd)) as Hall.
  { intros Hneg. destruct (decide (n < length (queueFamilyProperties pd))%nat)
      as [Hlt|]; [| lia].
    apply Hstop in Hlt. unfold isComplete in Hlt.
    apply andb_prop in Hlt as [?%Z.leb_le ?%Z.leb_le]. lia. }
  split.
  - destruct Hg as [[Hr Hnone] | (j & qf & Hj & Hr & Hlk & Hsat & _)].
    + left. split; [exact Hr |]. intros j (qf & Hlk & Hsat).
      specialize (Hall (or_introl Hr)).
      apply lookup_lt_Some in Hlk as Hlt.
      rewrite (Hnone j qf) in Hsat; [discriminate | lia | done].
    + right. exists j. split; [lia | by exists qf].
  - destruct Hp as [[Hr Hnone] | (j & qf & Hj & Hr & Hlk & Hsat & _)].
    + left. split; [exact Hr |]. intros j (qf & Hlk & Hsat).
      specialize (Hall (or_intror Hr)).
      apply lookup_lt_Some in Hlk as Hlt.
      rewrite <- (Z.add_0_l (Z.of_nat j)) in Hsat.
      rewrite (Hnone j qf) in Hsat; [discriminate | lia | done].
    + right. exists j. split; [lia |]. exists qf. split; [done |].
      by rewrite Z.add_0_l in Hsat.
Qed.

(** X4. The lookup resolves both families exactly when the device has
    some family with a queue and the graphics bit and some family with a
    queue that can present to the surface. *)
Theorem findQueueFamilies_complete_iff (pd : PhysicalDevice) :
  isComplete (findQueueFamilies pd) = true
  ↔ (∃ j, graphicsAt pd j) ∧ (∃ k, presentAt pd k).
Proof.
  destruct (findQueueFamilies_fields pd) as [Hg Hp]. unfold isComplete.
  rewrite andb_true_iff, !Z.leb_le. split.
  - intros [Hg0 Hp0]. split.
    + destruct Hg as [[Hr _] | (j & _ & Hj)]; [lia | by exists j].
    + destruct Hp as [[Hr _] | (j & _ & Hj)]; [lia | by exists j].
  - intros [[j Hj] [k Hk]]. split.
    + destruct Hg as [[_ Hnone] | (j' & -> & _)]; [by destruct (Hnone j) | lia].
    + destruct Hp as [[_ Hnone] | (j' & -> & _)]; [by destruct (Hnone k) | lia].
Qed.

(** X5. A field of the result is [-1] exactly when no family of the
    device qualifies for that role; a field that is not [-1] is the
    index of a family of the device that does qualify for it. *)
Theorem findQueueFamilies_resolved_family_qualifies (pd : PhysicalDevice) :
  let r := findQueueFamilies pd in
  (graphicsFamily r = -1 ↔ ∀ j, ¬ graphicsAt pd j)
  ∧ (presentFamily r = -1 ↔ ∀ j, ¬ presentAt pd j)
  ∧ (graphicsFamily r ≠ -1 →
     ∃ j : nat, graphicsFamily r = Z.of_nat j ∧ graphicsAt pd j)
  ∧ (presentFamily r ≠ -1 →
     ∃ j : nat, presentFamily r = Z.of_nat j ∧ presentAt pd j).
Proof.
  intros r. subst r. destruct (findQueueFamilies_fields pd) as [Hg Hp].
  split; [| split; [| split]].
  - destruct Hg as [[Hr Hnone] | (j & Hr & Hj)]; [done |].
    split; [lia | intros Hnone; by destruct (Hnone j)].
  - destruct Hp as [[Hr Hnone] | (j & Hr & Hj)]; [done |].
    split; [lia | intros Hnone; by destruct (Hnone j)].
  - intros Hne. destruct Hg as [[Hr _] | ?]; [done | assumption].
  - intros Hne. destruct Hp as [[Hr _] | ?]; [done | assumption].
Qed.

Lemma findQueueFamilies_resolved_family_qualifies_witness :
  findQueueFamilies computeOnly = unresolved
  ∧ (∀ j, ¬ graphicsAt computeOnly j)
  ∧ ∃ j : nat, presentFamily (findQueueFamilies splitFamilies) = Z.of_nat j
              ∧ presentAt splitFamilies j.
Proof.
  split; [reflexivity |]. split.
  - apply (proj1 (proj1
      (findQueueFamilies_resolved_family_qualifies computeOnly))).
    reflexivity.
  - apply (proj2 (proj2 (proj2
      (findQueueFamilies_resolved_family_qualifies splitFamilies)))).
    discriminate.
Defined.

Lemma findQueueFamilies_complete_iff_witness :
  (∃ j, graphicsAt splitFamilies j) ∧ (∃ k, presentAt splitFamilies k)
  ∧ isComplete (findQueueFamilies computeOnly) = false.
Proof.
  destruct (proj1 (findQueueFamilies_complete_iff splitFamilies) eq_refl)
    as [Hg Hp].
  split; [exact Hg |]. split; [exact Hp | reflexivity].
Defined.

(** ** Rating and selection, continued *)

Lemma meetsRequirements_withLimit pd m :
  meetsRequirements (withLimit pd m) = meetsRequirements pd.
Proof. reflexivity. Qed.

(** X6. The score does not decrease when only the image dimension
    limit of a device grows, as long as the larger sum still fits an
    [int]. *)
Theorem ratePhysicalDevice_monotone_in_limit (pd : PhysicalDevice)
    (m1 m2 : Z) :
  0 <= m1 <= m2 →
  plainScore (withLimit pd m2) <= INT_MAX →
  ratePhysicalDevice (withLimit pd m1) <= ratePhysicalDevice (withLimit pd m2).
Proof.
  intros Hm Hmax. rewrite !ratePhysicalDevice_cases, !meetsRequirements_withLimit.
  destruct (meetsRequirements pd); [| lia].
  unfold plainScore in *. simpl in *.
  rewrite !to_int32_small; unfold INT_MAX in *;
    destruct (isDiscrete _); lia.
Qed.

Lemma ratePhysicalDevice_monotone_in_limit_witness :
  ratePhysicalDevice (withLimit discreteA 4096)
  <= ratePhysicalDevice (withLimit discreteA 16384).
Proof.
  apply (ratePhysicalDevice_monotone_in_limit discreteA 4096 16384).
  - lia.
  - vm_compute. discriminate.
Defined.

Lemma pickPhysicalDevice_selected devs d :
  pickPhysicalDevice devs = inr d →
  d ∈ devs
  ∧ 0 < ratePhysicalDevice d
  ∧ meetsRequirements d = true
  ∧ isComplete (findQueueFamilies d) = true.
Proof.
  intros Hpick. destruct (decide (devs = [])) as [->|Hne]; [discriminate |].
  destruct (pickPhysicalDevice_cases devs Hne)
    as (pre & d0 & post & Heq & _ & _ & _ & Hcases).
  rewrite Hcases in Hpick.
  destruct (0 <? ratePhysicalDevice d0) eqn:Hpos; [| discriminate].
  injection Hpick as ->. apply Z.ltb_lt in Hpos.
  assert (meetsRequirements d = true) as Hm.
  { rewrite ratePhysicalDevice_cases in Hpos.
    destruct (meetsRequirements d); [done | lia]. }
  split; [rewrite Heq; set_solver |]. split; [exact Hpos |].
  split; [exact Hm |]. unfold meetsRequirements in Hm.
  repeat (apply andb_prop in Hm as [Hm ?]). done.
Qed.

(** X7. A selected device is one of the enumerated devices, its score
    is above 0 and it meets the four hard requirements; in particular
    both of its queue families are resolved. *)
Theorem pickPhysicalDevice_selected_is_suitable
    (devs : list PhysicalDevice) (d : PhysicalDevice) :
  pickPhysicalDevice devs = inr d →
  d ∈ devs
  ∧ 0 < ratePhysicalDevice d
  ∧ meetsRequirements d = true
  ∧ isComplete (findQueueFamilies d) = true.
Proof. apply pickPhysicalDevice_selected. Qed.

Lemma pickPhysicalDevice_selected_is_suitable_witness :
  pickPhysicalDevice [noGeometry; discreteA; computeOnly] = inr discreteA
  ∧ meetsRequirements discreteA = true.
Proof.
  assert (pickPhysicalDevice [noGeometry; discreteA; computeOnly]
          = inr discreteA) as H by (vm_compute; reflexivity).
  split; [exact H |].
  apply (pickPhysicalDevice_selected_is_suitable _ _ H).
Defined.

Lemma multimap_insert_permutation {V} (kv : Z * V) (m : multimap V) :
  multimap_insert kv m ≡ₚ kv :: m.
Proof.
  induction m as [|e rest IH]; simpl; [done |].
  destruct (kv.1 <? e.1); [done |].
  rewrite IH. apply Permutation_swap.
Qed.

(** X8. The score table holds every enumerated device exactly once,
    paired with its score, and its entries are in non-decreasing order
    of score. *)
Theorem scoreTable_sorted_permutation (devs : list PhysicalDevice) :
  keyOrdered (scoreTable devs)
  ∧ scoreTable devs ≡ₚ (fun d => (ratePhysicalDevice d, d)) <$> devs
  ∧ length (scoreTable devs) = length devs.
Proof.
  assert (scoreTable devs ≡ₚ (fun d => (ratePhysicalDevice d, d)) <$> devs)
    as Hperm.
  { induction devs as [|x devs IH] using rev_ind; [done |].
    rewrite scoreTable_snoc, multimap_insert_permutation, IH, fmap_app.
    simpl. by rewrite Permutation_app_comm. }
  split; [apply scoreTable_ordered |]. split; [exact Hperm |].
  by rewrite Hperm, length_fmap.
Qed.

(** ** Instance creation and debug callback, continued *)

Lemma is_success_iff r : is_success r = true ↔ r = VK_SUCCESS.
Proof. by destruct r. Qed.

Lemma getRequestedExtensions_cases drv :
  getRequestedExtensions drv
  = if allFound (requestedExtensions drv) (availableExtensions drv)
    then inr (requestedExtensions drv)
    else inl UnsupportedExtension.
Proof. reflexivity. Qed.

Lemma initVulkan_equation drv app :
  initVulkan drv app
  = let ci := vkCreateInstance (instanceCreateInfo drv) in
    let dbg := vkCreateDebugReportCallbackEXT in
    let surf := glfwCreateWindowSurface in
    if negb (checkValidationLayerSupport drv)
    then (inl UnsupportedLayer, app)
    else if negb (allFound (requestedExtensions drv) (availableExtensions drv))
    then (inl UnsupportedExtension, app)
    else if negb (is_success (instanceResult drv (instanceCreateInfo drv)))
    then (inl ContextCreationFailed, withCalls app [ci])
    else if negb (instanceProcAddr drv "vkCreateDebugReportCallbackEXT")
    then (inl DebugSinkSetupFailed, withCalls app [ci])
    else if negb (is_success (debugReportCallbackResult drv))
    then (inl DebugSinkSetupFailed, withCalls app [ci; dbg])
    else if negb (is_success (windowSurfaceResult drv))
    then (inl SurfaceCreationFailed, withCalls app [ci; dbg; surf])
    else
      match pickPhysicalDevice (physicalDevices drv) with
      | inl e => (inl e, withCalls app [ci; dbg; surf])
      | inr pd =>
          let indices := findQueueFamilies pd in
          let di := deviceCreateInfo indices in
          let g := to_uint32 (graphicsFamily indices) in
          let p := to_uint32 (presentFamily indices) in
          if is_success (deviceResult drv pd di)
          then (inr (),
                {| physicalDevice := Some pd;
                   graphicsQueue := Some (g, 0);
                   presentQueue := Some (p, 0);
                   calls := calls app ++ [ci; dbg; surf; vkCreateDevice pd di;
                                          vkGetDeviceQueue g 0;
                                          vkGetDeviceQueue p 0] |})
          else (inl LogicalDeviceCreationFailed,
                {| physicalDevice := Some pd;
                   graphicsQueue := graphicsQueue app;
                   presentQueue := presentQueue app;
                   calls := calls app ++ [ci; dbg; surf;
                                          vkCreateDevice pd di] |})
      end.
Proof.
  unfold initVulkan, createInstance, setupDebugCallback,
    CreateDebugReportCallbackEXT, createSurface, withCalls.
  unfold mbind, M_bind. simpl.
  destruct (checkValidationLayerSupport drv); [| reflexivity]. simpl.
  rewrite getRequestedExtensions_cases.
  destruct (allFound _ _); [| reflexivity]. simpl.
  fold (instanceCreateInfo drv).
  destruct (is_success (instanceResult drv _)); [| reflexivity]. simpl.
  destruct (instanceProcAddr drv _); [| reflexivity]. simpl.
  destruct (is_success (debugReportCallbackResult drv));
    [| by rewrite <- !app_assoc]. simpl.
  destruct (is_success (windowSurfaceResult drv));
    [| by rewrite <- !app_assoc]. simpl.
  destruct (pickPhysicalDevice _) as [e|pd]; simpl;
    [by rewrite <- !app_assoc |].
  pose proof (createLogicalDevice_cases drv pd
    {| physicalDevice := Some pd; graphicsQueue := graphicsQueue app;
       presentQueue := presentQueue app;
       calls := ((calls app ++ [vkCreateInstance (instanceCreateInfo drv)])
                 ++ [vkCreateDebugReportCallbackEXT])
                ++ [glfwCreateWindowSurface] |}) as H.
  simpl in H. destruct (is_success (deviceResult drv pd _));
    rewrite H; simpl; by rewrite <- !app_assoc.
Qed.

Lemma createInstance_equation drv app :
  createInstance drv app
  = let ci := vkCreateInstance (instanceCreateInfo drv) in
    if negb (checkValidationLayerSupport drv)
    then (inl UnsupportedLayer, app)
    else if negb (allFound (requestedExtensions drv) (availableExtensions drv))
    then (inl UnsupportedExtension, app)
    else if is_success (instanceResult drv (instanceCreateInfo drv))
    then (inr (), withCalls app [ci])
    else (inl ContextCreationFailed, withCalls app [ci]).
Proof.
  unfold createInstance, mbind, M_bind. simpl.
  destruct (checkValidationLayerSupport drv); [| reflexivity]. simpl.
  rewrite getRequestedExtensions_cases.
  destruct (allFound _ _); [| reflexivity]. simpl.
  fold (instanceCreateInfo drv).
  by destruct (is_success (instanceResult drv _)).
Qed.

(** X9. The layer check answers true exactly when the driver's layer
    list contains the standard validation layer; the position of the
    name in the list and any other entries play no part. *)
Theorem checkValidationLayerSupport_iff (drv : Driver) :
  checkValidationLayerSupport drv = true
  ↔ "VK_LAYER_LUNARG_standard_validation" ∈ availableLayers drv.
Proof.
  unfold checkValidationLayerSupport. rewrite allFound_true. split.
  - intros H. apply H. left.
  - intros H r Hr. by apply list_elem_of_singleton in Hr as ->.
Qed.

(** X10. [getRequestedExtensions] returns a list exactly when every
    name it asks for is offered by the driver, and the list is then the
    names required by GLFW, in GLFW's order, followed by the debug
    report extension; its only failure is [UnsupportedExtension]. *)
Theorem getRequestedExtensions_result (drv : Driver) :
  (∀ l, getRequestedExtensions drv = inr l
        ↔ l = glfwExtensions drv ++ [VK_EXT_DEBUG_REPORT_EXTENSION_NAME]
          ∧ ∀ e, e ∈ l → e ∈ availableExtensions drv)
  ∧ (∀ err, getRequestedExtensions drv = inl err →
            err = UnsupportedExtension ∧ missingExtension drv).
Proof.
  rewrite getRequestedExtensions_cases.
  destruct (allFound _ _) eqn:Hall.
  - pose proof (proj1 (allFound_true _ _) Hall) as Hok.
    split; [| discriminate]. intros l. split.
    + intros [= <-]. done.
    + intros [-> _]. reflexivity.
  - pose proof (proj1 (allFound_false _ _) Hall) as Hmiss. split.
    + intros l. split; [discriminate |]. intros [-> Hl].
      destruct Hmiss as (e & He & Hn). by destruct (Hn (Hl e He)).
    + intros err [= <-]. done.
Qed.

Lemma getRequestedExtensions_result_witness :
  getRequestedExtensions workingDriver
    = inr ["VK_KHR_surface"; "VK_KHR_win32_surface"; "VK_EXT_debug_report"]
  ∧ getRequestedExtensions driverWithoutDebugReport = inl UnsupportedExtension.
Proof.
  split.
  - apply (proj1 (getRequestedExtensions_result workingDriver)).
    split; [reflexivity |]. apply allFound_true. reflexivity.
  - destruct (getRequestedExtensions driverWithoutDebugReport) as [err|l] eqn:H.
    + by destruct (proj2 (getRequestedExtensions_result
                            driverWithoutDebugReport) err H) as [-> _].
    + discriminate H.
Defined.

(** X11. [createInstance] returns exactly when every requested layer
    and every requested extension is offered and the driver accepts the
    request; it has then issued one [vkCreateInstance], with the
    requested layers and the requested extensions. When only the driver
    refuses, it fails with [ContextCreationFailed] after that same
    call. *)
Theorem createInstance_outcome (drv : Driver)
    (app : HelloTriangleApplication) :
  let accepted :=
    (∀ l, l ∈ requestedLayers → l ∈ availableLayers drv)
    ∧ (∀ e, e ∈ requestedExtensions drv → e ∈ availableExtensions drv) in
  let call := vkCreateInstance (instanceCreateInfo drv) in
  ((∃ app', createInstance drv app = (inr (), app'))
   ↔ accepted ∧ instanceResult drv (instanceCreateInfo drv) = VK_SUCCESS)
  ∧ (∀ app', createInstance drv app = (inr (), app') →
             app' = withCalls app [call])
  ∧ (accepted →
     instanceResult drv (instanceCreateInfo drv) ≠ VK_SUCCESS →
     createInstance drv app = (inl ContextCreationFailed, withCalls app [call])).
Proof.
  intros accepted call. subst accepted call. rewrite createInstance_equation.
  cbv zeta. destruct (checkValidationLayerSupport drv) eqn:Hl; cbn [negb].
  - pose proof (proj1 (allFound_true _ _) Hl) as Hlayers.
    destruct (allFound (requestedExtensions drv) _) eqn:He; cbn [negb].
    + pose proof (proj1 (allFound_true _ _) He) as Hexts.
      destruct (is_success _) eqn:Hs.
      * apply is_success_iff in Hs. split; [| split].
        -- split; [done | eauto].
        -- by intros app' [= <-].
        -- done.
      * assert (instanceResult drv (instanceCreateInfo drv) ≠ VK_SUCCESS)
          as Hn by (intros ?%is_success_iff; congruence).
        split; [| split]; try done.
        split; [by intros [? ?] | by intros [_ ?]].
    + apply allFound_false in He as (e & Hin & Hn).
      split; [| split].
      * split; [by intros [? ?] | intros [[_ H] _]; by destruct (Hn (H e Hin))].
      * discriminate.
      * intros [_ H]. by destruct (Hn (H e Hin)).
  - apply allFound_false in Hl as (l & Hin & Hn).
    split; [| split].
    + split; [by intros [? ?] | intros [[H _] _]; by destruct (Hn (H l Hin))].
    + discriminate.
    + intros [H _]. by destruct (Hn (H l Hin)).
Qed.

Lemma createInstance_outcome_witness :
  createInstance workingDriver newApplication
  = (inr (),
     withCalls newApplication
       [vkCreateInstance
          {| enabledLayerNames := ["VK_LAYER_LUNARG_standard_validation"];
             enabledExtensionNames :=
               ["VK_KHR_surface"; "VK_KHR_win32_surface";
                "VK_EXT_debug_report"] |}]).
Proof.
  destruct (proj2 (proj1 (createInstance_outcome workingDriver newApplication)))
    as [app' H].
  - split; [| reflexivity]. split; apply allFound_true; reflexivity.
  - rewrite H. f_equal.
    apply (proj1 (proj2 (createInstance_outcome workingDriver newApplication))).
    exact H.
Defined.

(** X12. [setupDebugCallback] fails with [DebugSinkSetupFailed] without
    calling the driver when [vkGetInstanceProcAddr] has no entry point
    for the creation function; with an entry point it issues the
    creation call once, and returns or fails with the same error
    according to the result of that call. *)
Theorem setupDebugCallback_outcome (drv : Driver)
    (app : HelloTriangleApplication) :
  (instanceProcAddr drv "vkCreateDebugReportCallbackEXT" = false →
   setupDebugCallback drv app = (inl DebugSinkSetupFailed, app))
  ∧ (instanceProcAddr drv "vkCreateDebugReportCallbackEXT" = true →
     debugReportCallbackResult drv = VK_SUCCESS →
     setupDebugCallback drv app
     = (inr (), withCalls app [vkCreateDebugReportCallbackEXT]))
  ∧ (instanceProcAddr drv "vkCreateDebugReportCallbackEXT" = true →
     debugReportCallbackResult drv ≠ VK_SUCCESS →
     setupDebugCallback drv app
     = (inl DebugSinkSetupFailed,
        withCalls app [vkCreateDebugReportCallbackEXT])).
Proof.
  unfold setupDebugCallback, CreateDebugReportCallbackEXT, mbind, M_bind.
  simpl. split; [| split].
  - by intros ->.
  - by intros -> ->.
  - intros -> Hn. simpl. destruct (debugReportCallbackResult drv); done.
Qed.

Lemma setupDebugCallback_outcome_witness :
  setupDebugCallback workingDriver newApplication
  = (inr (), withCalls newApplication [vkCreateDebugReportCallbackEXT]).
Proof.
  apply (proj1 (proj2 (setupDebugCallback_outcome workingDriver
                         newApplication))); reflexivity.
Defined.

(** ** Logical device, continued *)

(** X13. When the driver refuses the request, [createLogicalDevice]
    fails with [LogicalDeviceCreationFailed]: the one call it has issued
    is [vkCreateDevice], no queue is fetched, and the queue members keep
    their values. *)
Theorem createLogicalDevice_rejected (drv : Driver) (pd : PhysicalDevice)
    (app : HelloTriangleApplication) :
  let createInfo := deviceCreateInfo (findQueueFamilies pd) in
  deviceResult drv pd createInfo ≠ VK_SUCCESS →
  ∃ app',
    createLogicalDevice drv pd app = (inl LogicalDeviceCreationFailed, app')
    ∧ issued app app' = [vkCreateDevice pd createInfo]
    ∧ graphicsQueue app' = graphicsQueue app
    ∧ presentQueue app' = presentQueue app.
Proof.
  intros createInfo Hn. pose proof (createLogicalDevice_cases drv pd app) as H.
  simpl in H. fold createInfo in H.
  destruct (is_success _) eqn:Hs; [by apply is_success_iff in Hs |].
  eexists. split; [exact H |]. split; [by apply issued_app | done].
Qed.

Lemma createLogicalDevice_rejected_witness :
  ∃ app',
    createLogicalDevice driverRejectingDevice discreteA newApplication
    = (inl LogicalDeviceCreationFailed, app')
    ∧ graphicsQueue app' = None.
Proof.
  destruct (createLogicalDevice_rejected driverRejectingDevice discreteA
              newApplication) as (app' & H & _ & Hg & _); [discriminate |].
  exists app'. split; [exact H | exact Hg].
Defined.



(** ** Start-up, continued *)

Lemma startsUp_iff drv :
  startsUp drv
  ↔ checkValidationLayerSupport drv = true
    ∧ allFound (requestedExtensions drv) (availableExtensions drv) = true
    ∧ is_success (instanceResult drv (instanceCreateInfo drv)) = true
    ∧ instanceProcAddr drv "vkCreateDebugReportCallbackEXT" = true
    ∧ is_success (debugReportCallbackResult drv) = true
    ∧ is_success (windowSurfaceResult drv) = true
    ∧ ∃ pd, pickPhysicalDevice (physicalDevices drv) = inr pd
            ∧ is_success (deviceResult drv pd
                            (deviceCreateInfo (findQueueFamilies pd))) = true.
Proof.
  unfold startsUp, checkValidationLayerSupport.
  rewrite !allFound_true, !is_success_iff.
  by setoid_rewrite is_success_iff.
Qed.

Lemma initVulkan_returns_iff drv app :
  (∃ app', initVulkan drv app = (inr (), app')) ↔ startsUp drv.
Proof.
  rewrite startsUp_iff, initVulkan_equation. cbv zeta.
  destruct (checkValidationLayerSupport drv); cbn [negb];
    [| split; [by intros [? ?] | by intros [? _]]].
  destruct (allFound _ _); cbn [negb];
    [| split; [by intros [? ?] | by intros (_ & ? & _)]].
  destruct (is_success (instanceResult _ _)); cbn [negb];
    [| split; [by intros [? ?] | by intros (_ & _ & ? & _)]].
  destruct (instanceProcAddr _ _); cbn [negb];
    [| split; [by intros [? ?] | by intros (_ & _ & _ & ? & _)]].
  destruct (is_success (debugReportCallbackResult _)); cbn [negb];
    [| split; [by intros [? ?] | by intros (_ & _ & _ & _ & ? & _)]].
  destruct (is_success (windowSurfaceResult _)); cbn [negb];
    [| split; [by intros [? ?] | by intros (_ & _ & _ & _ & _ & ? & _)]].
  destruct (pickPhysicalDevice _) as [e|pd].
  - split; [by intros [? ?] |].
    intros (_ & _ & _ & _ & _ & _ & pd & ? & _). done.
  - destruct (is_success (deviceResult _ _ _)) eqn:Hs.
    + split; [| eauto]. intros _. repeat split. exists pd. done.
    + split; [by intros [? ?] |].
      intros (_ & _ & _ & _ & _ & _ & pd' & [= <-] & ?). congruence.
Qed.

(** X15. [initVulkan] returns exactly when every step succeeds: the
    requested layers and extensions are offered, the driver creates the
    instance, the debug callback entry point exists and succeeds, the
    surface is created, a device is selected and the driver creates the
    logical device for it. Whether it returns does not depend on the
    state of the application. *)
Theorem initVulkan_succeeds_iff (drv : Driver)
    (app : HelloTriangleApplication) :
  (∃ app', initVulkan drv app = (inr (), app')) ↔ startsUp drv.
Proof. apply initVulkan_returns_iff. Qed.

Lemma initVulkan_succeeds_iff_witness :
  startsUp workingDriver ∧ ¬ startsUp driverWithoutDevices.
Proof.
  split.
  - apply (proj1 (initVulkan_succeeds_iff workingDriver newApplication)).
    eexists. vm_compute. reflexivity.
  - intros H.
    apply (proj2 (initVulkan_succeeds_iff driverWithoutDevices
                    newApplication)) in H as [app' H].
    vm_compute in H. discriminate H.
Defined.

Lemma initVulkan_failure_calls drv app e app' :
  initVulkan drv app = (inl e, app') →
  ∃ l, calls app' = calls app ++ l
       ∧ releaseOrder l = []
       ∧ acquisitionOrder l = attemptedBefore drv e
       ∧ (glfwDestroyWindow ∉ l) ∧ (glfwTerminate ∉ l).
Proof.
  rewrite initVulkan_equation. cbv zeta.
  destruct (checkValidationLayerSupport drv); cbn [negb].
  2: { intros [= <- <-]. exists []. rewrite app_nil_r.
       repeat split; try done; by intros ?%elem_of_nil. }
  destruct (allFound _ _); cbn [negb].
  2: { intros [= <- <-]. exists []. rewrite app_nil_r.
       repeat split; try done; by intros ?%elem_of_nil. }
  destruct (is_success (instanceResult _ _)); cbn [negb].
  2: { intros [= <- <-]. eexists. split; [reflexivity |].
       repeat split; try done; intros H;
         repeat (apply elem_of_cons in H as [H|H]; [discriminate H |]);
         by apply elem_of_nil in H. }
  destruct (instanceProcAddr _ _) eqn:Hproc; cbn [negb].
  2: { intros [= <- <-]. eexists. split; [reflexivity |].
       unfold attemptedBefore. rewrite Hproc.
       repeat split; try done; intros H;
         repeat (apply elem_of_cons in H as [H|H]; [discriminate H |]);
         by apply elem_of_nil in H. }
  destruct (is_success (debugReportCallbackResult _)); cbn [negb].
  2: { intros [= <- <-]. eexists. split; [reflexivity |].
       unfold attemptedBefore. rewrite Hproc.
       repeat split; try done; intros H;
         repeat (apply elem_of_cons in H as [H|H]; [discriminate H |]);
         by apply elem_of_nil in H. }
  destruct (is_success (windowSurfaceResult _)); cbn [negb].
  2: { intros [= <- <-]. eexists. split; [reflexivity |].
       repeat split; try done; intros H;
         repeat (apply elem_of_cons in H as [H|H]; [discriminate H |]);
         by apply elem_of_nil in H. }
  destruct (pickPhysicalDevice _) as [err|pd] eqn:Hpick.
  - intros [= <- <-]. eexists. split; [reflexivity |].
    assert (err = NoDeviceDetected ∨ err = NoSuitableDevice) as [->| ->].
    { unfold pickPhysicalDevice in Hpick.
      destruct (_ =? 0); [injection Hpick as <-; by left |].
      destruct (rbegin _) as [[score d]|];
        [destruct (0 <? score); [discriminate |] |];
        injection Hpick as <-; by right. }
    all: repeat split; try done; intros H;
      repeat (apply elem_of_cons in H as [H|H]; [discriminate H |]);
      by apply elem_of_nil in H.
  - destruct (is_success (deviceResult _ _ _)); [discriminate |].
    intros [= <- <-]. eexists. split; [reflexivity |].
    repeat split; try done; intros H;
      repeat (apply elem_of_cons in H as [H|H]; [discriminate H |]);
      by apply elem_of_nil in H.
Qed.

(** X16. When [initVulkan] throws, it has issued no release call, so
    whatever it created stays allocated; and the creation calls it has
    issued by then are determined by the error: none for a missing layer
    or extension, the instance for a refused instance, the instance and
    (when the entry point exists) the debug callback for a debug
    callback failure, these two and the surface for a surface or
    selection failure, and all four for a refused logical device. *)
Theorem initVulkan_failure_releases_nothing (drv : Driver)
    (app app' : HelloTriangleApplication) (e : Error) :
  initVulkan drv app = (inl e, app') →
  releaseOrder (issued app app') = []
  ∧ acquisitionOrder (issued app app') = attemptedBefore drv e.
Proof.
  intros H. apply initVulkan_failure_calls in H as (l & Hl & Hr & Ha & _).
  by rewrite (issued_app _ _ _ Hl).
Qed.

Lemma initVulkan_failure_releases_nothing_witness :
  (initVulkan driverRejectingDevice newApplication).1
    = inl LogicalDeviceCreationFailed
  ∧ acquisitionOrder
      (issued newApplication
         (initVulkan driverRejectingDevice newApplication).2)
    = [Context; DebugSink; Surface; LogicalDevice]
  ∧ releaseOrder
      (issued newApplication
         (initVulkan driverRejectingDevice newApplication).2)
    = [].
Proof.
  split; [vm_compute; reflexivity |].
  destruct (initVulkan_failure_releases_nothing driverRejectingDevice
              newApplication
              (initVulkan driverRejectingDevice newApplication).2
              LogicalDeviceCreationFailed) as [Hr Ha].
  - vm_compute. reflexivity.
  - split; [exact Ha | exact Hr].
Defined.

(** X17. When [initVulkan] returns, the stored physical device is the
    selected one, it meets the hard requirements, and the graphics and
    presentation queues are queue 0 of a family of that device that has
    a queue and the graphics bit, respectively a queue and presentation
    support. *)
Theorem initVulkan_end_state (drv : Driver)
    (app app' : HelloTriangleApplication) :
  initVulkan drv app = (inr (), app') →
  ∃ pd (j k : nat),
    pickPhysicalDevice (physicalDevices drv) = inr pd
    ∧ physicalDevice app' = Some pd
    ∧ meetsRequirements pd = true
    ∧ graphicsAt pd j ∧ presentAt pd k
    ∧ graphicsQueue app' = Some (to_uint32 (Z.of_nat j), 0)
    ∧ presentQueue app' = Some (to_uint32 (Z.of_nat k), 0).
Proof.
  rewrite initVulkan_equation. cbv zeta.
  destruct (checkValidationLayerSupport drv); cbn [negb]; [| discriminate].
  destruct (allFound _ _); cbn [negb]; [| discriminate].
  destruct (is_success (instanceResult _ _)); cbn [negb]; [| discriminate].
  destruct (instanceProcAddr _ _); cbn [negb]; [| discriminate].
  destruct (is_success (debugReportCallbackResult _)); cbn [negb];
    [| discriminate].
  destruct (is_success (windowSurfaceResult _)); cbn [negb]; [| discriminate].
  destruct (pickPhysicalDevice _) as [err|pd] eqn:Hpick; [discriminate |].
  destruct (is_success (deviceResult _ _ _)); [| discriminate].
  intros [= <-]. simpl.
  destruct (pickPhysicalDevice_selected _ _ Hpick) as (_ & _ & Hm & Hc).
  destruct (findQueueFamilies_fields pd) as [Hg Hp].
  unfold isComplete in Hc. apply andb_prop in Hc as [Hg0%Z.leb_le Hp0%Z.leb_le].
  destruct Hg as [[Hg _] | (j & Hg & Hj)]; [lia |].
  destruct Hp as [[Hp _] | (k & Hp & Hk)]; [lia |].
  exists pd, j, k. rewrite Hg, Hp. done.
Qed.

Lemma initVulkan_end_state_witness :
  ∃ pd, physicalDevice (initVulkan workingDriver newApplication).2 = Some pd
        ∧ meetsRequirements pd = true.
Proof.
  destruct (initVulkan_end_state workingDriver newApplication
              (initVulkan workingDriver newApplication).2)
    as (pd & j & k & _ & Hpd & Hm & _).
  - vm_compute. reflexivity.
  - exists pd. split; [exact Hpd | exact Hm].
Defined.

(** ** Main loop, run and main *)

Lemma mainLoop_polls (shouldClose : list bool) :
  ∀ polls : nat,
    mainLoop shouldClose = Some polls
    ↔ shouldClose !! polls = Some true
      ∧ ∀ j : nat, (j < polls)%nat → shouldClose !! j = Some false.
Proof.
  induction shouldClose as [|[|] rest IH]; intros polls; simpl.
  - split; [discriminate | by intros [? _]].
  - split.
    + intros [= <-]. split; [done | intros; lia].
    + intros [Hk Hbefore]. destruct polls as [|polls]; [done |].
      specialize (Hbefore 0%nat ltac:(lia)). discriminate.
  - destruct polls as [|polls].
    + split; [destruct (mainLoop rest); discriminate | by intros [? _]].
    + split.
      * destruct (mainLoop rest) as [k|]; [| discriminate].
        intros [= <-]. destruct (proj1 (IH k) eq_refl) as [Hk Hbefore].
        split; [exact Hk |]. intros [|j] Hj; [done |].
        simpl. apply Hbefore. lia.
      * intros [Hk Hbefore].
        assert (mainLoop rest = Some polls) as ->; [| done].
        apply IH. split; [exact Hk |]. intros j Hj.
        apply (Hbefore (S j)). lia.
Qed.

Lemma mainLoop_returns_iff (shouldClose : list bool) :
  (∃ polls, mainLoop shouldClose = Some polls) ↔ true ∈ shouldClose.
Proof.
  induction shouldClose as [|[|] rest IH]; simpl.
  - split; [by intros [? ?] | by intros ?%elem_of_nil].
  - split; [intros _; left | eauto].
  - rewrite elem_of_cons, <- IH. split.
    + intros [polls H]. destruct (mainLoop rest) as [k|]; [eauto | done].
    + intros [? | [k ->]]; [done | eauto].
Qed.

(** X18. The main loop ends exactly when the window reports at some
    time that it is closed; the events are then polled once for every
    earlier answer, all of which said that the window is open. *)
Theorem mainLoop_ends_at_first_close (shouldClose : list bool) :
  ((∃ polls, mainLoop shouldClose = Some polls) ↔ true ∈ shouldClose)
  ∧ ∀ polls : nat,
      mainLoop shouldClose = Some polls
      ↔ shouldClose !! polls = Some true
        ∧ ∀ j : nat, (j < polls)%nat → shouldClose !! j = Some false.
Proof. split; [apply mainLoop_returns_iff | apply mainLoop_polls]. Qed.

Lemma mainLoop_ends_at_first_close_witness :
  mainLoop [false; false; true; false; true] = Some 2%nat
  ∧ mainLoop [false; false] = None.
Proof.
  split; [| reflexivity].
  apply (proj2 (mainLoop_ends_at_first_close [false; false; true; false; true])).
  split; [reflexivity |]. intros [|[|j]] Hj; [reflexivity | reflexivity | lia].
Defined.

Lemma cleanup_equation drv app :
  cleanup drv app = (inr (), withCalls app (cleanupCalls drv)).
Proof.
  unfold cleanup, DestroyDebugReportCallbackEXT, cleanupCalls, withCalls.
  unfold mbind, M_bind, issue. destruct (instanceProcAddr drv _); simpl;
    by rewrite <- !app_assoc.
Qed.

Lemma run_equation drv shouldClose app :
  run drv shouldClose app
  = match initVulkan drv (withCalls app [glfwInit; glfwCreateWindow]) with
    | (inl e, app') => Some (inl e, app')
    | (inr _, app') =>
        match mainLoop shouldClose with
        | None => None
        | Some _ => Some (inr (), withCalls app' (cleanupCalls drv))
        end
    end.
Proof.
  unfold run.
  assert ((initWindow;; initVulkan drv) app
          = initVulkan drv (withCalls app [glfwInit; glfwCreateWindow])) as ->.
  { unfold initWindow, mbind, M_bind, withCalls. simpl.
    by rewrite <- app_assoc. }
  destruct (initVulkan drv _) as [[e|[]] app']; [done |].
  destruct (mainLoop shouldClose); [| done]. by rewrite cleanup_equation.
Qed.

(** X19. [cleanup] never throws and does not look at what was created:
    on every application it destroys the logical device, the debug
    callback (only when the entry point to destroy it exists), the
    surface and the instance, in this order, and ends with
    [glfwTerminate]. *)
Theorem cleanup_outcome (drv : Driver) (app : HelloTriangleApplication) :
  ∃ app2,
    cleanup drv app = (inr (), app2)
    ∧ releaseOrder (issued app app2)
      = (if instanceProcAddr drv "vkDestroyDebugReportCallbackEXT"
         then [LogicalDevice; DebugSink; Surface; Context]
         else [LogicalDevice; Surface; Context])
    ∧ last (issued app app2) = Some glfwTerminate.
Proof.
  rewrite cleanup_equation. eexists. split; [reflexivity |].
  rewrite (issued_app app _ (cleanupCalls drv)) by reflexivity.
  unfold cleanupCalls. by destruct (instanceProcAddr drv _).
Qed.

(** X20. When [run] ends with an exception, the exception comes from
    [initVulkan]; the window has been created, and nothing has been
    released: no Vulkan object is destroyed, the window is not
    destroyed and GLFW is not terminated. *)
Theorem run_failure_releases_nothing (drv : Driver)
    (shouldClose : list bool) (app app' : HelloTriangleApplication)
    (e : Error) :
  run drv shouldClose app = Some (inl e, app') →
  take 2 (issued app app') = [glfwInit; glfwCreateWindow]
  ∧ releaseOrder (issued app app') = []
  ∧ acquisitionOrder (issued app app') = attemptedBefore drv e
  ∧ (glfwDestroyWindow ∉ issued app app')
  ∧ (glfwTerminate ∉ issued app app').
Proof.
  rewrite run_equation.
  destruct (initVulkan drv _) as [[e'|[]] app1] eqn:Hinit.
  - intros [= <- <-].
    apply initVulkan_failure_calls in Hinit
      as (l & Hl & Hr & Ha & Hw & Ht).
    simpl in Hl. rewrite <- app_assoc in Hl.
    rewrite (issued_app _ _ _ Hl). simpl.
    split; [done |]. split; [exact Hr |]. split; [exact Ha |].
    split; intros H;
      repeat (apply elem_of_cons in H as [H|H]; [discriminate H |]); done.
  - destruct (mainLoop shouldClose); discriminate.
Qed.

Lemma run_failure_releases_nothing_witness :
  run driverWithoutDevices [true] newApplication
    = Some (inl NoDeviceDetected,
            (initVulkan driverWithoutDevices
               (withCalls newApplication [glfwInit; glfwCreateWindow])).2)
  ∧ releaseOrder
      (issued newApplication
         (initVulkan driverWithoutDevices
            (withCalls newApplication [glfwInit; glfwCreateWindow])).2)
    = [].
Proof.
  assert (run driverWithoutDevices [true] newApplication
          = Some (inl NoDeviceDetected,
                  (initVulkan driverWithoutDevices
                     (withCalls newApplication
                        [glfwInit; glfwCreateWindow])).2)) as H
    by (vm_compute; reflexivity).
  split; [exact H |].
  apply (run_failure_releases_nothing _ _ _ _ _ H).
Defined.




